(** * Script session layer of the node script runner

    A shallow embedding of [server/script/node]'s [Script] handle: the
    recovery state machine of [Script.exchange] (bounded out-of-memory
    retries, lazy load on eviction) and the stack translator
    [Script.rewriteJavaScriptStack].

    Go values are embedded as follows.
    - [string] is a byte string: Rocq's [string] of [ascii].
    - [int] is the 64-bit signed integer: a [Z] with the wrap-around of
      every arithmetic operation written out ([int_wrap]).
    - [error] is a tree of wrapped errors, observed through [errors.Is]
      and [errors.As] only, as the source does; the nil error is [None].
    - the [*exchanger] is an external collaborator: a state type with a
      step function, threaded explicitly through [Script.exchange]. *)

From Stdlib Require Import ZArith List String Ascii Bool Lia DecimalString.
Import ListNotations.

Local Open Scope string_scope.
Local Open Scope Z_scope.

(** ** Go primitives used by the source *)

Module Go.

(** *** [int] *)

Definition int_min : Z := - 2 ^ 63.
Definition int_max : Z := 2 ^ 63 - 1.

(** Two's complement wrap-around of a mathematical integer into [int]. *)
Definition int_wrap (z : Z) : Z := (z + 2 ^ 63) mod 2 ^ 64 - 2 ^ 63.

Definition int_add (a b : Z) : Z := int_wrap (a + b).
Definition int_sub (a b : Z) : Z := int_wrap (a - b).

Definition in_int (z : Z) : Prop := int_min <= z <= int_max.

(** *** [strings] *)

Definition newline : ascii := "010"%char.

(** [strings.Split(s, sep)] for a one-byte separator. *)
Fixpoint strings_Split (s : string) (sep : ascii) : list string :=
  match s with
  | EmptyString => [EmptyString]
  | String c s' =>
      if Ascii.eqb c sep then EmptyString :: strings_Split s' sep
      else match strings_Split s' sep with
           | [] => [String c EmptyString]
           | h :: t => String c h :: t
           end
  end.

(** [strings.Join(elems, sep)]. *)
Fixpoint strings_Join (elems : list string) (sep : string) : string :=
  match elems with
  | [] => EmptyString
  | [e] => e
  | e :: rest => e ++ sep ++ strings_Join rest sep
  end.

Fixpoint trim_left (s : string) (cut : ascii) : string :=
  match s with
  | EmptyString => EmptyString
  | String c s' => if Ascii.eqb c cut then trim_left s' cut else s
  end.

Fixpoint trim_right (s : string) (cut : ascii) : string :=
  match s with
  | EmptyString => EmptyString
  | String c s' =>
      match trim_right s' cut with
      | EmptyString => if Ascii.eqb c cut then EmptyString
                       else String c EmptyString
      | r => String c r
      end
  end.

(** [strings.Trim(s, cutset)] for a one-byte cutset. *)
Definition strings_Trim (s : string) (cut : ascii) : string :=
  trim_right (trim_left s cut) cut.

(** *** [strconv.Atoi] with its error dropped ([v, _ := strconv.Atoi(s)]) *)

Definition is_digit (c : ascii) : bool :=
  let n := nat_of_ascii c in (48 <=? n)%nat && (n <=? 57)%nat.

Definition digit_val (c : ascii) : Z := Z.of_nat (nat_of_ascii c) - 48.

(** Value of a digit string, [None] on a byte that is not a digit. *)
Fixpoint parse_digits (s : string) (acc : Z) : option Z :=
  match s with
  | EmptyString => Some acc
  | String c s' =>
      if is_digit c then parse_digits s' (10 * acc + digit_val c) else None
  end.

Definition parse_unsigned (s : string) : option Z :=
  match s with
  | EmptyString => None
  | _ => parse_digits s 0
  end.

(** Syntax errors give 0; values out of range give the nearest bound. *)
Definition strconv_Atoi (s : string) : Z :=
  match s with
  | String "-"%char s' =>
      match parse_unsigned s' with
      | Some n => Z.max int_min (- n)
      | None => 0
      end
  | String "+"%char s' =>
      match parse_unsigned s' with
      | Some n => Z.min int_max n
      | None => 0
      end
  | _ =>
      match parse_unsigned s with
      | Some n => Z.min int_max n
      | None => 0
      end
  end.

(** The [%d] verb of [fmt.Sprintf]. *)
Definition fmt_d (z : Z) : string := NilZero.string_of_int (Z.to_int z).

(** *** [regexp]

    A pattern is compiled, as in Go's [regexp/syntax], to a sequence
    of instructions.  The subset below is what [vmStackTraceLine]
    needs: single-byte classes, greedy and lazy repetition of a class,
    capture parentheses and the two anchors.  [run] is the
    backtracking matcher whose first success Go's leftmost-first
    semantics returns. *)

Inductive inst : Type :=
| IClass (p : ascii -> bool)
| IStar (greedy : bool) (p : ascii -> bool)
| IOpen
| IClose
| IEnd.

(** Capture groups in order of their opening parenthesis; group 0 is
    the whole match.  An open group receives every consumed byte. *)
Definition caps : Type := list (bool * string).

Definition consume (c : ascii) (cs : caps) : caps :=
  map (fun g : bool * string =>
         if fst g then (true, snd g ++ String c EmptyString) else g) cs.

(** Closes the innermost (last opened) open group. *)
Fixpoint close_last (cs : caps) : caps * bool :=
  match cs with
  | [] => ([], false)
  | g :: rest =>
      let (rest', done) := close_last rest in
      if done then (g :: rest', true)
      else if fst g then ((false, snd g) :: rest', true)
      else (g :: rest', false)
  end.

Fixpoint run (prog : list inst) (s : string) (cs : caps) : option caps :=
  match prog with
  | [] => Some cs
  | IClass p :: rest =>
      match s with
      | String c s' => if p c then run rest s' (consume c cs) else None
      | EmptyString => None
      end
  | IStar greedy p :: rest =>
      (fix loop (s : string) (cs : caps) {struct s} : option caps :=
         if greedy then
           match s with
           | String c s' =>
               if p c then
                 match loop s' (consume c cs) with
                 | Some r => Some r
                 | None => run rest s cs
                 end
               else run rest s cs
           | EmptyString => run rest s cs
           end
         else
           match run rest s cs with
           | Some r => Some r
           | None =>
               match s with
               | String c s' => if p c then loop s' (consume c cs) else None
               | EmptyString => None
               end
           end) s cs
  | IOpen :: rest => run rest s (cs ++ [(true, EmptyString)])%list
  | IClose :: rest => run rest s (fst (close_last cs))
  | IEnd :: rest =>
      match s with
      | EmptyString => run rest s cs
      | _ => None
      end
  end.

(** [re.FindStringSubmatch(s)] for a pattern that starts with [^]: the
    match is attempted at offset 0 only.  [[]] is Go's nil slice. *)
Definition FindStringSubmatch (re : list inst) (s : string) : list string :=
  match run re s [(true, EmptyString)] with
  | Some cs => map snd cs
  | None => []
  end.

(** Pattern pieces. *)
Definition lit (s : string) : list inst :=
  map (fun c => IClass (Ascii.eqb c)) (list_ascii_of_string s).

Definition plus (p : ascii -> bool) : list inst := [IClass p; IStar true p].

Definition group (r : list inst) : list inst := IOpen :: (r ++ [IClose])%list.

(** [\s] is [[\t\n\f\r ]]. *)
Definition perl_space (c : ascii) : bool :=
  match nat_of_ascii c with
  | 9%nat | 10%nat | 12%nat | 13%nat | 32%nat => true
  | _ => false
  end.

(** [.] without the [s] flag: any byte but the newline. *)
Definition any_char_not_nl (c : ascii) : bool := negb (Ascii.eqb c newline).

End Go.

Import Go.

(** ** Data model *)

(** [interface{}] values that cross the wire: JSON documents. *)
#[warnings="-register-all"]
Inductive any : Type :=
| ANull
| ABool (b : bool)
| ANumber (n : Z)
| AString (s : string)
| AArray (elems : list any)
| AObject (fields : list (string * any)).

Record Session : Type := { session : string }.

Record Init : Type := {
  init_Session : Session;
  Executable : string; Variables : list (string * any);
  Includes : list string
}.

(** [Args] is a slice: [None] is the nil slice. *)
Record Execute : Type := {
  exec_Session : Session;
  Function : string;
  Args : option (list any)
}.

(** Modelled from the spec: the [jsError] type is declared elsewhere in
    the package; the source reads and writes its fields [message] and
    [stack], which the spec describes as a human-readable message and an
    optional raw stack trace. *)
Record jsError : Type := { message : string; stack : string }.

(** Modelled from the spec: the values of Go's [error] interface that
    the handle can be given.  The source observes an error through
    [errors.Is] against the two sentinels [ipc.ErrOutOfMemory] and
    [errLoadRequired] and through [errors.As] to a [jsError], both of
    which walk the tree of wrapped errors.  The leaves are the
    sentinels, a [jsError] value (the spec's structured script error)
    and any other, opaque error; [Wrap] is an error with an
    [Unwrap() error] method and [Join] one with [Unwrap() []error], so
    that an out-of-memory error may have a stack attached, as the spec
    allows. *)
Inductive error : Type :=
| ErrOutOfMemory
| errLoadRequired
| JsError (e : jsError)
| Opaque (text : string)
| Wrap (text : string) (cause : error)
| Join (first second : error).

(** [errors.Is(err, ipc.ErrOutOfMemory)] *)
Fixpoint is_ErrOutOfMemory (err : error) : bool :=
  match err with
  | ErrOutOfMemory => true
  | Wrap _ cause => is_ErrOutOfMemory cause
  | Join e1 e2 => is_ErrOutOfMemory e1 || is_ErrOutOfMemory e2
  | _ => false
  end.

(** [errors.Is(err, errLoadRequired)] *)
Fixpoint is_errLoadRequired (err : error) : bool :=
  match err with
  | errLoadRequired => true
  | Wrap _ cause => is_errLoadRequired cause
  | Join e1 e2 => is_errLoadRequired e1 || is_errLoadRequired e2
  | _ => false
  end.

(** [errors.As(err, &jsErr)]: the first [jsError] of the tree, in
    depth-first order. *)
Fixpoint errors_As (err : error) : option jsError :=
  match err with
  | JsError e => Some e
  | Wrap _ cause => errors_As cause
  | Join e1 e2 =>
      match errors_As e1 with
      | Some e => Some e
      | None => errors_As e2
      end
  | _ => None
  end.

(** The [Script] handle.  Its [exchanger] field points to the external
    collaborator, whose state is threaded separately. *)
Record Script : Type := {
  init : Init;
  colOffset : Z;
  rowOffset : Z;
  errCount : Z
}.

Definition set_errCount (s : Script) (n : Z) : Script :=
  {| init := init s; colOffset := colOffset s; rowOffset := rowOffset s;
     errCount := n |}.

Definition maxScriptErrors : Z := 3.

(** ** Stack translator *)

(** [regexp.MustCompile(`^\s*at\s(.*?)\s\(vm\.js:(\d+):(\d+)\)$`)] *)
Definition vmStackTraceLine : list inst :=
  ([IStar true perl_space]
   ++ lit "at"
   ++ [IClass perl_space]
   ++ group [IStar false any_char_not_nl]
   ++ [IClass perl_space]
   ++ lit "(vm.js:"
   ++ group (plus is_digit)
   ++ lit ":"
   ++ group (plus is_digit)
   ++ lit ")"
   ++ [IEnd])%list.

(** [match[i]] on the slice of submatches. *)
Definition submatch (m : list string) (i : nat) : string :=
  nth i m EmptyString.

(** [row, _ := strconv.Atoi(match[2]); row -= s.rowOffset + 1 + len(s.Init.Includes)] *)
Definition corrected_row (s : Script) (m : list string) : Z :=
  int_sub (strconv_Atoi (submatch m 2))
          (int_add (int_add (rowOffset s) 1)
                   (Z.of_nat (List.length (Includes (init s))))).

(** [column, _ := strconv.Atoi(match[3]); if row == 1 { column -= s.colOffset }] *)
Definition corrected_column (s : Script) (m : list string) (row : Z) : Z :=
  let column := strconv_Atoi (submatch m 3) in
  if row =? 1 then int_sub column (colOffset s) else column.

Definition frame_function (m : list string) : string :=
  let function := submatch m 1 in
  if String.eqb function "module.exports" then "main" else function.

(** [fmt.Sprintf(`  at %s (%d:%d)`, function, row, column)] *)
Definition sprintf_frame (function : string) (row column : Z) : string :=
  "  at " ++ function ++ " (" ++ fmt_d row ++ ":" ++ fmt_d column ++ ")".

(** What one iteration of the loop over the lines does. *)
Inductive line_action : Type :=
| Continue                 (* [continue]: the line is dropped *)
| ReturnErr                (* [return err]: translation is abandoned *)
| Append (frame : string). (* [stack = append(stack, frame)] *)

Definition rewriteLine (s : Script) (i : nat) (line : string) : line_action :=
  if Nat.eqb i 0 then Continue
  else
    let m := FindStringSubmatch vmStackTraceLine line in
    if Nat.eqb (List.length m) 0 then Continue
    else
      let row := corrected_row s m in
      if row <? 0 then ReturnErr
      else Append (sprintf_frame (frame_function m) row
                                 (corrected_column s m row)).

(** The loop [for i, line := range lines]; [None] is the early
    [return err]. *)
Fixpoint rewriteLines (s : Script) (i : nat) (lines : list string)
         (stack : list string) : option (list string) :=
  match lines with
  | [] => Some stack
  | line :: rest =>
      match rewriteLine s i line with
      | Continue => rewriteLines s (S i) rest stack
      | ReturnErr => None
      | Append frame => rewriteLines s (S i) rest (stack ++ [frame])%list
      end
  end.

Definition rewriteJavaScriptStack (s : Script) (err : error) : error :=
  match errors_As err with
  | None => err
  | Some jsErr =>
      if String.eqb (stack jsErr) "" then err
      else
        let lines := strings_Split (stack jsErr) newline in
        match rewriteLines s 0 lines [] with
        | None => err
        | Some stack' =>
            JsError {| message := message jsErr;
                       stack := strings_Trim
                                  (message jsErr ++ String newline ""
                                   ++ strings_Join stack' (String newline ""))
                                  newline |}
        end
  end.

(** ** Exchanges *)

(** Modelled from the spec: the command names, constants declared
    elsewhere in the package ([describe], [execute], [load],
    [unload]). *)
Inductive command : Type := describe | execute | load | unload.

Inductive payload : Type :=
| PSession (p : Session)
| PInit (p : Init)
| PExecute (p : Execute).

(** One call of [exchanger.exchange(command, payload, result)];
    [req_sink] tells whether [result] is a non-nil result sink. *)
Record request : Type := {
  req_command : command;
  req_payload : payload;
  req_sink : bool
}.

(** What the exchanger answers: the decoded response, or an error. *)
Inductive reply : Type :=
| Done (data : any)
| Failed (err : error).

Definition reply_err (r : reply) : option error :=
  match r with
  | Done _ => None
  | Failed err => Some err
  end.

(** The result sink after an exchange: a response is decoded into a
    non-nil sink; [None] is the nil sink. *)
Definition decode_into (result : option any) (r : reply) : option any :=
  match result, r with
  | Some _, Done data => Some data
  | _, _ => result
  end.

Definition is_some {A : Type} (o : option A) : bool :=
  match o with
  | Some _ => true
  | None => false
  end.

(** The exchange of [cmd] and [pl] with the result sink [result]. *)
Definition the_request (cmd : command) (pl : payload)
           (result : option any) : request :=
  {| req_command := cmd; req_payload := pl; req_sink := is_some result |}.

(** [s.exchanger.exchange(load, s.Init, nil)] *)
Definition load_request (s : Script) : request :=
  {| req_command := load; req_payload := PInit (init s); req_sink := false |}.

Section Exchanger.

(** The exchanger: its state and one exchange. *)
Variable X : Type.
Variable exchanger_exchange : X -> request -> reply * X.

(** What a call leaves behind: the handle, the exchanger, the
    exchanges issued in order, the result sink and the returned
    error. *)
Record outcome : Type := {
  out_script : Script;
  out_exchanger : X;
  out_trace : list request;
  out_result : option any;
  out_err : option error
}.

Definition after (reqs : list request) (o : option outcome)
  : option outcome :=
  match o with
  | None => None
  | Some o =>
      Some {| out_script := out_script o;
              out_exchanger := out_exchanger o;
              out_trace := (reqs ++ out_trace o)%list;
              out_result := out_result o;
              out_err := out_err o |}
  end.

(** [Script.exchange].  The source recurses without a bound; [fuel]
    bounds the number of recursive calls and [None] is fuel
    exhausted. *)
Fixpoint exchange (fuel : nat) (s : Script) (x : X) (cmd : command)
         (pl : payload) (result : option any) : option outcome :=
  match fuel with
  | O => None
  | S fuel' =>
      let req := the_request cmd pl result in
      let (r, x1) := exchanger_exchange x req in
      let result1 := decode_into result r in
      match reply_err r with
      | Some err =>
          if is_ErrOutOfMemory err then
            let s1 := set_errCount s (int_add (errCount s) 1) in
            if maxScriptErrors <=? errCount s1 then
              Some {| out_script := s1; out_exchanger := x1;
                      out_trace := [req]; out_result := result1;
                      out_err := Some err |}
            else after [req] (exchange fuel' s1 x1 cmd pl result1)
          else if is_errLoadRequired err then
            let lreq := load_request s in
            let (r2, x2) := exchanger_exchange x1 lreq in
            match reply_err r2 with
            | Some err2 =>
                Some {| out_script := s; out_exchanger := x2;
                        out_trace := [req; lreq]; out_result := result1;
                        out_err := Some (rewriteJavaScriptStack s err2) |}
            | None =>
                after [req; lreq] (exchange fuel' s x2 cmd pl result1)
            end
          else
            let s1 := set_errCount s 0 in
            Some {| out_script := s1; out_exchanger := x1;
                    out_trace := [req]; out_result := result1;
                    out_err := Some (rewriteJavaScriptStack s1 err) |}
      | None =>
          Some {| out_script := set_errCount s 0; out_exchanger := x1;
                  out_trace := [req]; out_result := result1;
                  out_err := None |}
      end
  end.

(** [Script.Describe]: the sink is a fresh, empty [Symbols] map; on an
    error the returned map is nil. *)
Definition Script_Describe (fuel : nat) (s : Script) (x : X)
  : option outcome :=
  match exchange fuel s x describe (PSession (init_Session (init s)))
                 (Some (AObject [])) with
  | None => None
  | Some o =>
      match out_err o with
      | Some _ =>
          Some {| out_script := out_script o;
                  out_exchanger := out_exchanger o;
                  out_trace := out_trace o;
                  out_result := None;
                  out_err := out_err o |}
      | None => Some o
      end
  end.

Definition execute_payload (s : Script) (name : string)
           (args : option (list any)) : payload :=
  PExecute {| exec_Session := init_Session (init s);
              Function := name;
              Args := match args with
                      | None => Some []
                      | Some a => Some a
                      end |}.

(** [Script.Execute] *)
Definition Script_Execute (fuel : nat) (s : Script) (x : X)
           (name : string) (args : option (list any))
           (result : option any) : option outcome :=
  exchange fuel s x execute (execute_payload s name args) result.

End Exchanger.

Arguments after {X}.
Arguments exchange {X}.
Arguments Script_Describe {X}.
Arguments Script_Execute {X}.
Arguments out_script {X}.
Arguments out_exchanger {X}.
Arguments out_trace {X}.
Arguments out_result {X}.
Arguments out_err {X}.

(** ** Mock exchangers *)

Module Mock.

(** Answers every exchange with the same reply. *)
Definition constant (r : reply) : unit -> request -> reply * unit :=
  fun st _ => (r, st).

(** Answers the exchanges with the replies of a script, in order, and
    with an opaque failure once the script is exhausted. *)
Definition scripted : list reply -> request -> reply * list reply :=
  fun st _ =>
    match st with
    | [] => (Failed (Opaque "unexpected exchange"), [])
    | r :: rest => (r, rest)
    end.

Definition fresh_script : Script :=
  {| init := {| init_Session := {| session := "session-1" |};
                Executable := "return $.a";
                Variables := [("a", ANumber 1)];
                Includes := [] |};
     colOffset := 10; rowOffset := 2; errCount := 0 |}.

End Mock.

(** ** Describing a run *)

Definition command_eqb (a b : command) : bool :=
  match a, b with
  | describe, describe | execute, execute | load, load
  | unload, unload => true
  | _, _ => false
  end.

(** How many exchanges of a trace carry the given command. *)
Definition count_command (c : command) (trace : list request) : nat :=
  List.length (filter (fun r => command_eqb (req_command r) c) trace).

Section Behaviour.

Variable X : Type.
Variable exchanger_exchange : X -> request -> reply * X.

(** The exchanger reports out-of-memory on every exchange. *)
Definition always_oom : Prop :=
  forall (x : X) (req : request),
  exists err, fst (exchanger_exchange x req) = Failed err
              /\ is_ErrOutOfMemory err = true.

(** From [x] on, the exchanger reports out-of-memory on the next [n]
    exchanges, whatever they are, and reaches a state where [K]
    holds. *)
Fixpoint oom_then (n : nat) (K : X -> Prop) (x : X) : Prop :=
  match n with
  | O => K x
  | S n' =>
      forall req : request,
      exists err x',
        exchanger_exchange x req = (Failed err, x')
        /\ is_ErrOutOfMemory err = true
        /\ oom_then n' K x'
  end.

(** At [x] the exchanger answers the next exchange with a success and
    reaches a state where [K] holds. *)
Definition ok_then (K : X -> Prop) (x : X) : Prop :=
  forall req : request,
  exists data x', exchanger_exchange x req = (Done data, x') /\ K x'.

End Behaviour.

(** ** Describing frame lines *)

(** Every byte of [s] is in the class [p]. *)
Fixpoint all_chars (p : ascii -> bool) (s : string) : bool :=
  match s with
  | EmptyString => true
  | String c s' => p c && all_chars p s'
  end.

(** The groups after the matcher has consumed the bytes of [pre]. *)
Fixpoint consume_str (pre : string) (cs : caps) : caps :=
  match pre with
  | EmptyString => cs
  | String c pre' => consume_str pre' (consume c cs)
  end.

(** The text of a frame line: blanks, [at], a blank, the function, a
    blank and the position [(vm.js:row:column)]. *)
Definition frame_line (ws : string) (sp1 : ascii) (function : string)
           (sp2 : ascii) (row column : string) : string :=
  ws ++ "at"
  ++ String sp1 (function
                 ++ String sp2 ("(vm.js:" ++ row ++ ":" ++ column ++ ")")).

(** The parts of a frame line are in the classes of the pattern. *)
Definition frame_parts (ws : string) (sp1 : ascii) (function : string)
           (sp2 : ascii) (row column : string) : Prop :=
  all_chars perl_space ws = true
  /\ perl_space sp1 = true
  /\ all_chars any_char_not_nl function = true
  /\ perl_space sp2 = true
  /\ row <> EmptyString /\ all_chars is_digit row = true
  /\ column <> EmptyString /\ all_chars is_digit column = true.

(** Any byte but the opening parenthesis. *)
Definition not_paren (c : ascii) : bool := negb (Ascii.eqb c "(").

(** The line matches the frame pattern. *)
Definition is_frame (line : string) : bool :=
  negb (Nat.eqb (List.length (FindStringSubmatch vmStackTraceLine line)) 0).

(** The corrected row of a frame line. *)
Definition frame_row (s : Script) (line : string) : Z :=
  corrected_row s (FindStringSubmatch vmStackTraceLine line).

(** The frame emitted for a frame line. *)
Definition translate_frame (s : Script) (line : string) : string :=
  let m := FindStringSubmatch vmStackTraceLine line in
  sprintf_frame (frame_function m) (corrected_row s m)
                (corrected_column s m (corrected_row s m)).

(** An exchanger that has lost every session: it answers load-required
    to every exchange but [load], which it accepts. *)
Definition evicting_exchanger : unit -> request -> reply * unit :=
  fun st req =>
    match req_command req with
    | load => (Done ANull, st)
    | _ => (Failed errLoadRequired, st)
    end.

(** ** Facts on the primitives *)

Lemma int_wrap_small (z : Z) : in_int z -> int_wrap z = z.
Proof.
  unfold in_int, int_wrap, int_min, int_max. intros H.
  rewrite Z.mod_small by lia. lia.
Qed.

Lemma int_wrap_in_int (z : Z) : in_int (int_wrap z).
Proof.
  unfold in_int, int_wrap, int_min, int_max.
  pose proof (Z.mod_pos_bound (z + 2 ^ 63) (2 ^ 64) ltac:(lia)). lia.
Qed.

Lemma strings_Split_nonempty (s : string) (sep : ascii) :
  strings_Split s sep <> [].
Proof.
  destruct s as [|c s]; simpl; [discriminate|].
  destruct (Ascii.eqb c sep); [discriminate|].
  destruct (strings_Split s sep); discriminate.
Qed.

(** A string that [strings.Split] leaves whole is one line: splitting
    after it gives that line followed by the lines of the rest. *)
Lemma strings_Split_app_line (h rest : string) (sep : ascii) :
  strings_Split h sep = [h] ->
  strings_Split (h ++ String sep rest) sep = h :: strings_Split rest sep.
Proof.
  induction h as [|c h IH]; simpl; intros H.
  - rewrite Ascii.eqb_refl. reflexivity.
  - destruct (Ascii.eqb c sep).
    + exfalso. injection H as H. now apply (strings_Split_nonempty h sep).
    + destruct (strings_Split h sep) as [|h0 t] eqn:E;
        [now apply strings_Split_nonempty in E|].
      injection H as H1 H2. subst h0 t.
      rewrite IH by reflexivity. reflexivity.
Qed.

Lemma trim_right_app_keeps (a b : string) (cut : ascii) :
  b <> EmptyString -> trim_right b cut = b ->
  trim_right (a ++ b) cut = a ++ b.
Proof.
  intros Hne Hb. induction a as [|c a IH]; simpl; [exact Hb|].
  rewrite IH. destruct (a ++ b) eqn:E; [|reflexivity].
  destruct a; simpl in E; [congruence|discriminate].
Qed.

Lemma append_nonempty_eqb (a : string) (c : ascii) (b : string) :
  String.eqb (a ++ String c b) EmptyString = false.
Proof. destruct a; reflexivity. Qed.

(** The primitives on small inputs. *)

Example strings_Split_lines :
  strings_Split (String "a" (String newline (String newline "b"))) newline
  = ["a"; ""; "b"].
Proof. reflexivity. Qed.

Example strings_Trim_newlines :
  strings_Trim (String newline (String "a" (String newline
                 (String "b" (String newline (String newline ""))))))
               newline
  = String "a" (String newline "b").
Proof. reflexivity. Qed.

Example strconv_Atoi_values :
  strconv_Atoi "15" = 15 /\ strconv_Atoi "007" = 7 /\ strconv_Atoi "" = 0
  /\ strconv_Atoi "1x" = 0
  /\ strconv_Atoi "99999999999999999999" = int_max.
Proof. repeat split. Qed.

Example fmt_d_values : fmt_d 0 = "0" /\ fmt_d 15 = "15" /\ fmt_d (-4) = "-4".
Proof. repeat split. Qed.

(** The frame pattern: leading blanks are optional, the function group
    is the shortest that lets the rest match, and the pattern is
    anchored at both ends. *)
Example vmStackTraceLine_frame :
  FindStringSubmatch vmStackTraceLine "    at module.exports (vm.js:5:15)"
  = ["    at module.exports (vm.js:5:15)"; "module.exports"; "5"; "15"].
Proof. vm_compute. reflexivity. Qed.

Example vmStackTraceLine_function_with_blanks :
  FindStringSubmatch vmStackTraceLine "at new Foo (bar) (vm.js:12:3)"
  = ["at new Foo (bar) (vm.js:12:3)"; "new Foo (bar)"; "12"; "3"].
Proof. vm_compute. reflexivity. Qed.

Example vmStackTraceLine_rejects :
  FindStringSubmatch vmStackTraceLine "    at main (vm.js:5:15) " = []
  /\ FindStringSubmatch vmStackTraceLine "    at main (node:vm:5:15)" = []
  /\ FindStringSubmatch vmStackTraceLine "Error: at x (vm.js:5:15)" = []
  /\ FindStringSubmatch vmStackTraceLine "    at vm.js:5:15" = [].
Proof. vm_compute. repeat split. Qed.

Lemma parse_digits_nonneg (s : string) :
  forall acc n, 0 <= acc -> parse_digits s acc = Some n -> 0 <= n.
Proof.
  induction s as [|c s IH]; cbn [parse_digits]; intros acc n Hacc H.
  - injection H as <-. exact Hacc.
  - destruct (is_digit c) eqn:Hd; [|discriminate].
    apply IH in H; [exact H|].
    unfold is_digit in Hd. apply andb_true_iff in Hd as [Hlo _].
    apply Nat.leb_le in Hlo. unfold digit_val. lia.
Qed.

Lemma strconv_Atoi_in_int (s : string) : in_int (strconv_Atoi s).
Proof.
  assert (Hu : forall t n, parse_unsigned t = Some n -> 0 <= n).
  { intros t n H. destruct t; [discriminate|].
    apply (parse_digits_nonneg _ 0 n ltac:(lia) H). }
  assert (Hpos : forall t, in_int match parse_unsigned t with
                                  | Some n => Z.min int_max n
                                  | None => 0
                                  end).
  { intros t. destruct (parse_unsigned t) as [n|] eqn:E.
    - apply Hu in E. unfold in_int, int_min, int_max. lia.
    - unfold in_int, int_min, int_max. lia. }
  assert (Hneg : forall t, in_int match parse_unsigned t with
                                  | Some n => Z.max int_min (- n)
                                  | None => 0
                                  end).
  { intros t. destruct (parse_unsigned t) as [n|] eqn:E.
    - apply Hu in E. unfold in_int, int_min, int_max. lia.
    - unfold in_int, int_min, int_max. lia. }
  unfold strconv_Atoi. destruct s as [|c t]; [apply (Hpos "")|].
  destruct c as [[] [] [] [] [] [] [] []];
    first [apply Hneg | apply (Hpos t) | apply (Hpos (String _ t))].
Qed.

(** Where nothing overflows, the corrected row is the raw row minus
    [rowOffset + 1 + number of includes] over the integers. *)
Lemma corrected_row_exact (s : Script) (m : list string) :
  0 <= rowOffset s ->
  rowOffset s + 1 + Z.of_nat (List.length (Includes (init s))) <= int_max ->
  0 <= strconv_Atoi (submatch m 2) ->
  corrected_row s m
  = strconv_Atoi (submatch m 2)
    - (rowOffset s + 1 + Z.of_nat (List.length (Includes (init s)))).
Proof.
  intros Hoff Hmax Hrow. unfold corrected_row, int_sub, int_add.
  pose proof (strconv_Atoi_in_int (submatch m 2)) as Hin.
  unfold in_int, int_min, int_max in *.
  rewrite (int_wrap_small (rowOffset s + 1))
    by (unfold in_int, int_min, int_max; lia).
  rewrite (int_wrap_small (rowOffset s + 1 + _))
    by (unfold in_int, int_min, int_max; lia).
  apply int_wrap_small. unfold in_int, int_min, int_max. lia.
Qed.

(** ** The stack translator *)

Section StackTranslator.

Variable s : Script.

(** A line on which the loop returns early makes the whole loop
    return early, whatever was accumulated before it. *)
Lemma rewriteLines_abandons (lines : list string) :
  forall (k i : nat) (line : string) (acc : list string),
    nth_error lines k = Some line ->
    rewriteLine s (i + k) line = ReturnErr ->
    rewriteLines s i lines acc = None.
Proof.
  induction lines as [|l rest IH]; intros k i line acc Hnth Habandon.
  - destruct k; discriminate.
  - destruct k as [|k]; simpl in Hnth.
    + injection Hnth as ->. rewrite Nat.add_0_r in Habandon.
      simpl. now rewrite Habandon.
    + simpl. replace (i + S k)%nat with (S i + k)%nat in Habandon by lia.
      destruct (rewriteLine s i l); eauto.
Qed.

Lemma rewriteLine_header (line : string) : rewriteLine s 0 line = Continue.
Proof. reflexivity. Qed.

(** A stack of a header line and one frame line. *)
Lemma rewriteLines_header_frame (header line frame : string) :
  rewriteLine s 1 line = Append frame ->
  rewriteLines s 0 [header; line] [] = Some [frame].
Proof.
  intros H. cbn [rewriteLines]. rewrite rewriteLine_header, H. reflexivity.
Qed.

(** What the loop body does on a frame line below the header. *)
Lemma rewriteLine_frame (i : nat) (line : string) :
  (1 <= i)%nat ->
  FindStringSubmatch vmStackTraceLine line <> [] ->
  let m := FindStringSubmatch vmStackTraceLine line in
  rewriteLine s i line =
    if corrected_row s m <? 0 then ReturnErr
    else Append (sprintf_frame (frame_function m) (corrected_row s m)
                   (corrected_column s m (corrected_row s m))).
Proof.
  intros Hi Hm m. unfold rewriteLine. fold m.
  destruct i as [|i]; [lia|]. simpl Nat.eqb. cbv iota.
  destruct m eqn:E; [contradiction|]. reflexivity.
Qed.

End StackTranslator.

Lemma rewriteJavaScriptStack_no_stack (s : Script) (err : error) :
  (forall jsErr, errors_As err = Some jsErr -> stack jsErr = EmptyString) ->
  rewriteJavaScriptStack s err = err.
Proof.
  intros H. unfold rewriteJavaScriptStack.
  destruct (errors_As err) as [jsErr|]; [|reflexivity].
  now rewrite (H jsErr eq_refl).
Qed.

(** C9.  A structured script error whose stack string is empty is
    returned as it came: the translator hands back the very error it was
    given and builds no translated stack. *)
Theorem rewriteJavaScriptStack_empty_stack (s : Script) (err : error)
        (jsErr : jsError) :
  errors_As err = Some jsErr ->
  stack jsErr = EmptyString ->
  rewriteJavaScriptStack s err = err.
Proof.
  intros Has Hstack. apply rewriteJavaScriptStack_no_stack.
  intros j Hj. congruence.
Qed.

Lemma rewriteJavaScriptStack_empty_stack_witness :
  rewriteJavaScriptStack Mock.fresh_script
    (Wrap "execute" (JsError {| message := "boom"; stack := "" |}))
  = Wrap "execute" (JsError {| message := "boom"; stack := "" |}).
Proof.
  apply (rewriteJavaScriptStack_empty_stack Mock.fresh_script
           (Wrap "execute" (JsError {| message := "boom"; stack := "" |}))
           {| message := "boom"; stack := "" |}); reflexivity.
Defined.

(** C8.  If a frame line of the stack (a line after the first that
    matches the frame pattern) has a negative corrected row, the
    translator returns exactly the error it was given: nothing of the
    frames translated before that line is kept. *)
Theorem rewriteJavaScriptStack_negative_row (s : Script) (err : error)
        (jsErr : jsError) (i : nat) (line : string) :
  errors_As err = Some jsErr ->
  nth_error (strings_Split (stack jsErr) newline) i = Some line ->
  (1 <= i)%nat ->
  FindStringSubmatch vmStackTraceLine line <> [] ->
  corrected_row s (FindStringSubmatch vmStackTraceLine line) < 0 ->
  rewriteJavaScriptStack s err = err.
Proof.
  intros Has Hline Hi Hmatch Hrow. unfold rewriteJavaScriptStack.
  rewrite Has. destruct (String.eqb (stack jsErr) ""); [reflexivity|].
  cbv zeta.
  rewrite (rewriteLines_abandons s _ i 0%nat line []); auto.
  simpl. rewrite rewriteLine_frame by assumption.
  apply Z.ltb_lt in Hrow. now rewrite Hrow.
Qed.

Lemma rewriteJavaScriptStack_negative_row_witness :
  let err :=
    Wrap "execute"
      (JsError {| message := "boom";
                  stack := "Error: boom
    at module.exports (vm.js:5:15)
    at wrapper (vm.js:2:3)
    at main (vm.js:7:1)" |}) in
  rewriteJavaScriptStack Mock.fresh_script err = err.
Proof.
  apply (rewriteJavaScriptStack_negative_row Mock.fresh_script _
           {| message := "boom";
              stack := "Error: boom
    at module.exports (vm.js:5:15)
    at wrapper (vm.js:2:3)
    at main (vm.js:7:1)" |} 2%nat "    at wrapper (vm.js:2:3)").
  - reflexivity.
  - reflexivity.
  - lia.
  - vm_compute. discriminate.
  - vm_compute. reflexivity.
Defined.

(** C10.  A frame whose corrected row is exactly 0 does not abandon the
    translation: the loop body appends the frame with row 0 and with the
    column as parsed (no [colOffset] correction, the row not being 1);
    and a stack made of a header line and that frame is translated to
    the message followed by that frame. *)
Theorem rewriteJavaScriptStack_row_zero (s : Script) (i : nat)
        (line : string) :
  (1 <= i)%nat ->
  FindStringSubmatch vmStackTraceLine line <> [] ->
  corrected_row s (FindStringSubmatch vmStackTraceLine line) = 0 ->
  let m := FindStringSubmatch vmStackTraceLine line in
  let frame :=
    "  at " ++ frame_function m ++ " (0:"
    ++ fmt_d (strconv_Atoi (submatch m 3)) ++ ")" in
  rewriteLine s i line = Append frame
  /\ (forall (err : error) (msg header : string),
         strings_Split header newline = [header] ->
         strings_Split line newline = [line] ->
         errors_As err
         = Some {| message := msg;
                   stack := header ++ String newline line |} ->
         rewriteJavaScriptStack s err
         = JsError {| message := msg;
                      stack := strings_Trim
                                 (msg ++ String newline "" ++ frame)
                                 newline |}).
Proof.
  intros Hi Hm Hrow m frame.
  assert (Hline : forall k, (1 <= k)%nat -> rewriteLine s k line = Append frame).
  { intros k Hk. rewrite rewriteLine_frame by assumption.
    fold m. unfold m in Hrow |- *. rewrite Hrow. reflexivity. }
  split; [now apply Hline|].
  intros err msg header Hheader Hone Has.
  unfold rewriteJavaScriptStack. rewrite Has. simpl stack. simpl message.
  rewrite append_nonempty_eqb. cbv zeta.
  rewrite strings_Split_app_line by assumption. rewrite Hone.
  rewrite (rewriteLines_header_frame s header line frame) by (apply Hline; lia).
  reflexivity.
Qed.

Lemma rewriteJavaScriptStack_row_zero_witness :
  rewriteLine Mock.fresh_script 1 "    at helper (vm.js:3:27)"
  = Append "  at helper (0:27)"
  /\ rewriteJavaScriptStack Mock.fresh_script
       (JsError {| message := "boom";
                   stack := "Error: boom
    at helper (vm.js:3:27)" |})
     = JsError {| message := "boom";
                  stack := "boom
  at helper (0:27)" |}.
Proof.
  pose proof (rewriteJavaScriptStack_row_zero Mock.fresh_script 1
                "    at helper (vm.js:3:27)" (le_n 1)) as H.
  destruct H as [Hframe Hwhole].
  - vm_compute. discriminate.
  - vm_compute. reflexivity.
  - split; [exact Hframe|].
    apply (Hwhole _ "boom" "Error: boom"); reflexivity.
Defined.

(** C7.  With [rowOffset = 2], no includes and [colOffset = 10], a stack
    made of a header line (dropped, whatever it is) and the frame
    [at module.exports (vm.js:5:15)] is translated as follows: the
    function is renamed to [main], the row is [5 - (2 + 1 + 0) = 2], the
    column stays 15, and the frame emitted is [at main (2:15)], indented
    as every emitted frame is; the new stack is the message followed by
    that frame. *)
Theorem rewriteJavaScriptStack_scenario (s : Script) (err : error)
        (msg header : string) :
  rowOffset s = 2 ->
  Includes (init s) = [] ->
  colOffset s = 10 ->
  strings_Split header newline = [header] ->
  errors_As err
  = Some {| message := msg;
            stack := header ++ String newline "at module.exports (vm.js:5:15)" |} ->
  let m := FindStringSubmatch vmStackTraceLine "at module.exports (vm.js:5:15)" in
  frame_function m = "main"
  /\ corrected_row s m = 5 - (2 + 1 + 0)
  /\ corrected_column s m (corrected_row s m) = 15
  /\ rewriteLine s 1 "at module.exports (vm.js:5:15)"
     = Append ("  " ++ "at main (2:15)")
  /\ rewriteJavaScriptStack s err
     = JsError {| message := msg;
                  stack := strings_Trim
                             (msg ++ String newline ("  " ++ "at main (2:15)"))
                             newline |}
  /\ (msg <> EmptyString -> trim_left msg newline = msg ->
      rewriteJavaScriptStack s err
      = JsError {| message := msg;
                   stack := msg ++ String newline ("  " ++ "at main (2:15)") |}).
Proof.
  intros Hrow Hinc Hcol Hheader Has m.
  assert (Hr : corrected_row s m = 2).
  { unfold corrected_row. rewrite Hrow, Hinc. vm_compute. reflexivity. }
  assert (Hc : corrected_column s m 2 = 15).
  { unfold corrected_column. vm_compute. reflexivity. }
  assert (Hl : rewriteLine s 1 "at module.exports (vm.js:5:15)"
               = Append "  at main (2:15)").
  { rewrite rewriteLine_frame; [|lia|vm_compute; discriminate].
    fold m. rewrite Hr, Hc. reflexivity. }
  assert (Hw : rewriteJavaScriptStack s err
               = JsError {| message := msg;
                  stack := strings_Trim
                             (msg ++ String newline "  at main (2:15)")
                             newline |}).
  { unfold rewriteJavaScriptStack. rewrite Has. simpl stack. simpl message.
    rewrite append_nonempty_eqb. cbv zeta.
    rewrite strings_Split_app_line by assumption.
    change (strings_Split "at module.exports (vm.js:5:15)" newline)
      with ["at module.exports (vm.js:5:15)"].
    rewrite (rewriteLines_header_frame s header _ _ Hl). reflexivity. }
  rewrite Hr. repeat split; try assumption; try reflexivity.
  intros Hne Hmsg. rewrite Hw. unfold strings_Trim. f_equal. f_equal.
  assert (Hleft : trim_left (msg ++ String newline "  at main (2:15)") newline
                  = msg ++ String newline "  at main (2:15)").
  { destruct msg as [|c msg']; [congruence|].
    simpl in Hmsg |- *. destruct (Ascii.eqb c newline) eqn:E; [|reflexivity].
    exfalso. clear - Hmsg E.
    assert (Hlen : forall t, (String.length (trim_left t newline)
                              <= String.length t)%nat).
    { induction t as [|a t IH]; simpl; [lia|].
      destruct (Ascii.eqb a newline); simpl; lia. }
    specialize (Hlen msg'). rewrite Hmsg in Hlen. simpl in Hlen. lia. }
  rewrite Hleft.
  apply (trim_right_app_keeps msg (String newline "  at main (2:15)"));
    [discriminate|reflexivity].
Qed.

Lemma rewriteJavaScriptStack_scenario_witness :
  rewriteJavaScriptStack Mock.fresh_script
    (JsError {| message := "boom";
                stack := "at Object.<anonymous> (vm.js:1:1)
at module.exports (vm.js:5:15)" |})
  = JsError {| message := "boom";
               stack := "boom
  at main (2:15)" |}.
Proof.
  refine (proj2 (proj2 (proj2 (proj2 (proj2
    (rewriteJavaScriptStack_scenario Mock.fresh_script _ "boom"
       "at Object.<anonymous> (vm.js:1:1)" _ _ _ _ _))))) _ _);
    try reflexivity.
  discriminate.
Defined.

(** ** The recovery state machine *)

Section Recovery.

Variable X : Type.
Variable exchanger_exchange : X -> request -> reply * X.

Lemma after_after (l1 l2 : list request) (o : option (outcome X)) :
  after l1 (after l2 o) = after (l1 ++ l2) o.
Proof. destruct o; simpl; [|reflexivity]. now rewrite app_assoc. Qed.

(** *** One step of [exchange], branch by branch *)

Section Step.

Variables (s : Script) (x : X) (cmd : command) (pl : payload)
          (result : option any) (fuel : nat).

Lemma exchange_success (data : any) (x1 : X) :
  exchanger_exchange x (the_request cmd pl result) = (Done data, x1) ->
  exchange exchanger_exchange (S fuel) s x cmd pl result
  = Some {| out_script := set_errCount s 0; out_exchanger := x1;
            out_trace := [the_request cmd pl result];
            out_result := decode_into result (Done data);
            out_err := None |}.
Proof. intros H. simpl. rewrite H. reflexivity. Qed.

Lemma exchange_oom_retry (err : error) (x1 : X) :
  exchanger_exchange x (the_request cmd pl result) = (Failed err, x1) ->
  is_ErrOutOfMemory err = true ->
  int_add (errCount s) 1 < maxScriptErrors ->
  exchange exchanger_exchange (S fuel) s x cmd pl result
  = after [the_request cmd pl result]
      (exchange exchanger_exchange fuel (set_errCount s (int_add (errCount s) 1)) x1
         cmd pl result).
Proof.
  intros H Hoom Hlt. simpl. rewrite H. simpl.
  rewrite Hoom. apply Z.leb_gt in Hlt. rewrite Hlt.
  destruct result; reflexivity.
Qed.

Lemma exchange_oom_stop (err : error) (x1 : X) :
  exchanger_exchange x (the_request cmd pl result) = (Failed err, x1) ->
  is_ErrOutOfMemory err = true ->
  maxScriptErrors <= int_add (errCount s) 1 ->
  exchange exchanger_exchange (S fuel) s x cmd pl result
  = Some {| out_script := set_errCount s (int_add (errCount s) 1);
            out_exchanger := x1;
            out_trace := [the_request cmd pl result];
            out_result := result;
            out_err := Some err |}.
Proof.
  intros H Hoom Hle. simpl. rewrite H. simpl.
  rewrite Hoom. apply Z.leb_le in Hle. rewrite Hle.
  destruct result; reflexivity.
Qed.

Lemma exchange_load_failed (err : error) (x1 : X) (err2 : error) (x2 : X) :
  exchanger_exchange x (the_request cmd pl result) = (Failed err, x1) ->
  is_ErrOutOfMemory err = false ->
  is_errLoadRequired err = true ->
  exchanger_exchange x1 (load_request s) = (Failed err2, x2) ->
  exchange exchanger_exchange (S fuel) s x cmd pl result
  = Some {| out_script := s; out_exchanger := x2;
            out_trace := [the_request cmd pl result; load_request s];
            out_result := result;
            out_err := Some (rewriteJavaScriptStack s err2) |}.
Proof.
  intros H Hoom Hlr H2. simpl.
  rewrite H. simpl. rewrite Hoom, Hlr, H2. simpl.
  destruct result; reflexivity.
Qed.

Lemma exchange_load_retry (err : error) (x1 : X) (data : any) (x2 : X) :
  exchanger_exchange x (the_request cmd pl result) = (Failed err, x1) ->
  is_ErrOutOfMemory err = false ->
  is_errLoadRequired err = true ->
  exchanger_exchange x1 (load_request s) = (Done data, x2) ->
  exchange exchanger_exchange (S fuel) s x cmd pl result
  = after [the_request cmd pl result; load_request s]
      (exchange exchanger_exchange fuel s x2 cmd pl result).
Proof.
  intros H Hoom Hlr H2. simpl.
  rewrite H. simpl. rewrite Hoom, Hlr, H2. simpl.
  destruct result; reflexivity.
Qed.

Lemma exchange_other_error (err : error) (x1 : X) :
  exchanger_exchange x (the_request cmd pl result) = (Failed err, x1) ->
  is_ErrOutOfMemory err = false ->
  is_errLoadRequired err = false ->
  exchange exchanger_exchange (S fuel) s x cmd pl result
  = Some {| out_script := set_errCount s 0; out_exchanger := x1;
            out_trace := [the_request cmd pl result];
            out_result := result;
            out_err := Some (rewriteJavaScriptStack (set_errCount s 0) err) |}.
Proof.
  intros H Hoom Hlr. simpl. rewrite H. simpl.
  rewrite Hoom, Hlr. destruct result; reflexivity.
Qed.

End Step.

(** *** Runs of out-of-memory replies *)

Lemma after_nil (o : option (outcome X)) : after [] o = o.
Proof. destruct o as [[? ? ? ? ?]|]; reflexivity. Qed.

Lemma set_errCount_same (s : Script) : set_errCount s (errCount s) = s.
Proof. destruct s; reflexivity. Qed.

Lemma int_add_1 (c : Z) : 0 <= c <= 2 -> int_add c 1 = c + 1.
Proof.
  intros H. apply int_wrap_small. unfold in_int, int_min, int_max. lia.
Qed.

(** Out-of-memory replies below the ceiling are retried one by one:
    [n] of them cost [n] exchanges of the same request and leave the
    counter [n] higher. *)
Lemma exchange_oom_run (n : nat) :
  forall (s : Script) (x : X) (cmd : command) (pl : payload)
         (result : option any) (K : X -> Prop) (fuel : nat),
    0 <= errCount s ->
    errCount s + Z.of_nat n < maxScriptErrors ->
    oom_then X exchanger_exchange n K x ->
    exists x',
      K x'
      /\ exchange exchanger_exchange (n + fuel) s x cmd pl result
         = after (repeat (the_request cmd pl result) n)
             (exchange exchanger_exchange fuel
                (set_errCount s (errCount s + Z.of_nat n)) x'
                cmd pl result).
Proof.
  unfold maxScriptErrors.
  induction n as [|n IH]; intros s x cmd pl result K fuel H0 Hlt Hooms.
  - exists x. split; [exact Hooms|].
    simpl. rewrite Z.add_0_r, set_errCount_same, after_nil. reflexivity.
  - destruct (Hooms (the_request cmd pl result)) as (err & x1 & Hx & Hoom & Hrest).
    assert (Hadd : int_add (errCount s) 1 = errCount s + 1)
      by (apply int_add_1; lia).
    destruct (IH (set_errCount s (errCount s + 1)) x1 cmd pl result K fuel)
      as (x' & HK & Hrun); simpl errCount; try lia; [exact Hrest|].
    exists x'. split; [exact HK|].
    change (S n + fuel)%nat with (S (n + fuel)).
    rewrite (exchange_oom_retry _ _ _ _ _ _ _ _ Hx Hoom)
      by (unfold maxScriptErrors; lia).
    rewrite Hadd, Hrun, after_after. simpl errCount.
    replace (errCount s + 1 + Z.of_nat n) with (errCount s + Z.of_nat (S n))
      by lia.
    destruct s; reflexivity.
Qed.

(** The out-of-memory reply that takes the counter to the ceiling ends
    the call: from a counter [c <= 2], [3 - c] such replies cost
    [3 - c] exchanges of the same request and leave the counter at 3. *)
Lemma exchange_oom_ceiling (m : nat) :
  forall (s : Script) (x : X) (cmd : command) (pl : payload)
         (result : option any) (K : X -> Prop) (fuel : nat),
    0 <= errCount s ->
    errCount s + Z.of_nat m = 2 ->
    oom_then X exchanger_exchange (S m) K x ->
    (S m <= fuel)%nat ->
    exists o err,
      exchange exchanger_exchange fuel s x cmd pl result = Some o
      /\ out_trace o = repeat (the_request cmd pl result) (S m)
      /\ out_err o = Some err
      /\ is_ErrOutOfMemory err = true
      /\ errCount (out_script o) = maxScriptErrors
      /\ K (out_exchanger o).
Proof.
  intros s x cmd pl result K fuel H0 Hc Hooms Hfuel.
  replace (S m) with (m + 1)%nat in Hooms by lia.
  assert (Hsplit : oom_then X exchanger_exchange m
                     (oom_then X exchanger_exchange 1 K) x).
  { clear - Hooms. revert x Hooms. induction m as [|m IH]; intros x H.
    - exact H.
    - intros req. destruct (H req) as (e & x' & Hx & He & Hr).
      exists e, x'. repeat split; auto. }
  destruct fuel as [|fuel]; [lia|].
  destruct (exchange_oom_run m s x cmd pl result _ (S (fuel - m))
              H0 ltac:(unfold maxScriptErrors; lia) Hsplit)
    as (x' & Hlast & Hrun).
  destruct (Hlast (the_request cmd pl result)) as (err & x2 & Hx & Hoom & HK).
  replace (m + S (fuel - m))%nat with (S fuel) in Hrun by lia.
  rewrite Hrun.
  rewrite (exchange_oom_stop _ _ _ _ _ _ _ _ Hx Hoom);
    simpl errCount; rewrite ?int_add_1 by lia;
    [|unfold maxScriptErrors; lia].
  eexists. exists err. split; [reflexivity|]. simpl.
  repeat split; auto.
  - change [the_request cmd pl result]
      with (repeat (the_request cmd pl result) 1).
    rewrite <- repeat_app.
    change (the_request cmd pl result
            :: repeat (the_request cmd pl result) m)
      with (repeat (the_request cmd pl result) (S m)).
    f_equal. lia.
  - unfold maxScriptErrors. lia.
Qed.

Lemma always_oom_oom_then (n : nat) (x : X) :
  always_oom X exchanger_exchange ->
  oom_then X exchanger_exchange n (fun _ => True) x.
Proof.
  intros Halways. revert x. induction n as [|n IH]; intros x; [exact I|].
  intros req. destruct (Halways x req) as (err & Hfst & Hoom).
  destruct (exchanger_exchange x req) as [r x'] eqn:E. simpl in Hfst.
  subst r. exists err, x'. auto.
Qed.

(** *** The counter across a call *)

Lemma after_Some (l : list request) (o' : option (outcome X))
      (o : outcome X) :
  after l o' = Some o ->
  exists o0,
    o' = Some o0
    /\ out_script o = out_script o0
    /\ out_trace o = (l ++ out_trace o0)%list
    /\ out_err o = out_err o0.
Proof.
  destruct o' as [o0|]; simpl; [|discriminate].
  intros H. injection H as <-. exists o0. auto.
Qed.

Lemma last_app_nonempty (l t : list request) (d : request) :
  t <> [] -> last (l ++ t) d = last t d.
Proof.
  intros Ht. induction l as [|a l IH]; [reflexivity|].
  simpl. rewrite IH. destruct (l ++ t)%list eqn:E; [|reflexivity].
  apply app_eq_nil in E. tauto.
Qed.

Lemma int_add_1_le (c : Z) : in_int c -> int_add c 1 <= c + 1.
Proof.
  intros H. destruct (Z.eq_dec c int_max) as [->|Hne].
  - vm_compute. discriminate.
  - unfold int_add. rewrite int_wrap_small; [lia|].
    unfold in_int, int_min, int_max in *. lia.
Qed.

(** How a call of [exchange] for a command other than [load] leaves
    the counter, by the way the call ended. *)
Lemma exchange_counter (fuel : nat) :
  forall (s : Script) (x : X) (cmd : command) (pl : payload)
         (result : option any) (o : outcome X),
    cmd <> load ->
    in_int (errCount s) ->
    exchange exchanger_exchange fuel s x cmd pl result = Some o ->
    out_trace o <> []
    /\ (out_err o = None -> errCount (out_script o) = 0)
    /\ (forall err,
           out_err o = Some err ->
           errCount (out_script o) = 0
           \/ (forall d, req_command (last (out_trace o) d) = load)
           \/ (is_ErrOutOfMemory err = true
               /\ maxScriptErrors <= errCount (out_script o)))
    /\ errCount (out_script o) <= Z.max maxScriptErrors (errCount s + 1).
Proof.
  unfold maxScriptErrors.
  induction fuel as [|fuel IH]; intros s x cmd pl result o Hcmd Hint Hrun;
    [discriminate|].
  simpl in Hrun.
  destruct (exchanger_exchange x (the_request cmd pl result)) as [r x1].
  destruct r as [data|err]; simpl in Hrun.
  - injection Hrun as <-. simpl.
    repeat split; try discriminate; auto; lia.
  - destruct (is_ErrOutOfMemory err) eqn:Hoom.
    + pose proof (int_add_1_le _ Hint) as Hle.
      destruct (maxScriptErrors <=? int_add (errCount s) 1) eqn:Hmax;
        unfold maxScriptErrors in Hmax.
      * injection Hrun as <-. simpl. apply Z.leb_le in Hmax.
        repeat split; try discriminate; [|lia].
        intros e He. injection He as <-. right. right. split; auto.
      * apply Z.leb_gt in Hmax.
        apply after_Some in Hrun as (o0 & Hrun & Hs & Ht & He).
        apply IH in Hrun as (Hne & Hok & Herr & Hbound);
          [|assumption|apply int_wrap_in_int].
        simpl errCount in Hbound. rewrite Hs, Ht, He.
        repeat split; auto.
        -- intros E. apply app_eq_nil in E. tauto.
        -- intros e Hee. destruct (Herr e Hee) as [H|[H|H]]; auto.
           right. left. intros d.
           rewrite last_app_nonempty by assumption. apply H.
        -- lia.
    + destruct (is_errLoadRequired err) eqn:Hlr.
      * destruct (exchanger_exchange x1 (load_request s)) as [r2 x2].
        destruct r2 as [data2|err2]; simpl in Hrun.
        -- apply after_Some in Hrun as (o0 & Hrun & Hs & Ht & He).
           apply IH in Hrun as (Hne & Hok & Herr & Hbound); auto.
           rewrite Hs, Ht, He. repeat split; auto.
           ++ intros E. apply app_eq_nil in E. destruct E; discriminate.
           ++ intros e Hee. destruct (Herr e Hee) as [H|[H|H]]; auto.
              right. left. intros d.
              rewrite last_app_nonempty by assumption. apply H.
        -- injection Hrun as <-. simpl.
           repeat split; try discriminate; [|lia].
           intros e _. right. left. reflexivity.
      * injection Hrun as <-. simpl.
        repeat split; try discriminate; auto; lia.
Qed.

End Recovery.

(** ** The claims on the recovery state machine *)

Section RecoveryClaims.

Variable X : Type.
Variable exchanger_exchange : X -> request -> reply * X.

(** C1.  On a handle whose counter is zero, with an exchanger that
    reports out-of-memory on every exchange, one [Execute] call issues
    exactly three exchanges, all of them the same [execute] request,
    issues no [load], and returns an out-of-memory error. *)
Theorem Execute_retry_ceiling (s : Script) (x : X) (name : string)
        (args : option (list any)) (result : option any) (fuel : nat) :
  always_oom X exchanger_exchange ->
  errCount s = 0 ->
  (3 <= fuel)%nat ->
  let req := the_request execute (execute_payload s name args) result in
  exists o err,
    Script_Execute exchanger_exchange fuel s x name args result = Some o
    /\ out_trace o = [req; req; req]
    /\ count_command execute (out_trace o) = 3%nat
    /\ count_command load (out_trace o) = 0%nat
    /\ out_err o = Some err
    /\ is_ErrOutOfMemory err = true.
Proof.
  intros Halways Hfresh Hfuel req.
  destruct (exchange_oom_ceiling X exchanger_exchange 2 s x execute
              (execute_payload s name args) result (fun _ => True) fuel)
    as (o & err & Hrun & Htrace & Herr & Hoom & _);
    try (rewrite Hfresh; lia); try assumption.
  { now apply always_oom_oom_then. }
  exists o, err. unfold Script_Execute. rewrite Hrun, Htrace.
  repeat split; auto.
Qed.

(** C2, as the code has it.  When an out-of-memory reply takes the
    counter to the ceiling, [exchange] returns the exchanger's error
    itself: the stack translator is not applied on this path.  The
    returned error is therefore the stack-translated one only when
    the error carries no script error with a stack. *)
Theorem exchange_ceiling_error_untranslated (s : Script) (x x1 : X)
        (cmd : command) (pl : payload) (result : option any)
        (err : error) (fuel : nat) :
  exchanger_exchange x (the_request cmd pl result) = (Failed err, x1) ->
  is_ErrOutOfMemory err = true ->
  maxScriptErrors <= int_add (errCount s) 1 ->
  exists o,
    exchange exchanger_exchange (S fuel) s x cmd pl result = Some o
    /\ out_err o = Some err
    /\ out_trace o = [the_request cmd pl result]
    /\ ((forall jsErr, errors_As err = Some jsErr ->
                       stack jsErr = EmptyString) ->
        out_err o = Some (rewriteJavaScriptStack (out_script o) err)).
Proof.
  intros Hx Hoom Hmax. eexists. split.
  - apply (exchange_oom_stop X exchanger_exchange s x cmd pl result fuel
             err x1 Hx Hoom Hmax).
  - simpl. repeat split. intros Hnostack.
    now rewrite rewriteJavaScriptStack_no_stack.
Qed.

(** C3.  The exchanger answers the first [execute] exchange with
    load-required, the [load] exchange with a success and the second
    [execute] exchange with a success: the [Execute] call succeeds
    after exactly these three exchanges, one [load] (carrying the
    whole [Init] of the handle, without a result sink) between two
    [execute] exchanges. *)
Theorem Execute_lazy_load (s : Script) (x0 x1 x2 x3 : X) (name : string)
        (args : option (list any)) (result : option any)
        (err : error) (loaded data : any) (fuel : nat) :
  let req := the_request execute (execute_payload s name args) result in
  let lreq := {| req_command := load; req_payload := PInit (init s);
                 req_sink := false |} in
  exchanger_exchange x0 req = (Failed err, x1) ->
  is_ErrOutOfMemory err = false ->
  is_errLoadRequired err = true ->
  exchanger_exchange x1 lreq = (Done loaded, x2) ->
  exchanger_exchange x2 req = (Done data, x3) ->
  (2 <= fuel)%nat ->
  exists o,
    Script_Execute exchanger_exchange fuel s x0 name args result = Some o
    /\ out_err o = None
    /\ out_trace o = [req; lreq; req]
    /\ count_command load (out_trace o) = 1%nat
    /\ count_command execute (out_trace o) = 2%nat
    /\ out_result o = decode_into result (Done data)
    /\ out_exchanger o = x3
    /\ errCount (out_script o) = 0.
Proof.
  intros req lreq H0 Hoom Hlr H1 H2 Hfuel.
  destruct fuel as [|[|fuel]]; try lia.
  unfold Script_Execute.
  rewrite (exchange_load_retry X exchanger_exchange _ _ _ _ _ _ _ _ _ _
             H0 Hoom Hlr H1).
  rewrite (exchange_success X exchanger_exchange _ _ _ _ _ _ _ _ H2).
  eexists. split; [reflexivity|]. simpl. repeat split.
Qed.

(** C4.  The exchanger answers the command with load-required and the
    [load] that follows with an error: the call returns the load's
    error, stack-translated, right after the [load] exchange; the
    command is not exchanged again and the handle, its counter
    included, is left as it was. *)
Theorem Execute_load_failure (s : Script) (x0 x1 x2 : X) (name : string)
        (args : option (list any)) (result : option any)
        (err loadErr : error) (fuel : nat) :
  let req := the_request execute (execute_payload s name args) result in
  exchanger_exchange x0 req = (Failed err, x1) ->
  is_ErrOutOfMemory err = false ->
  is_errLoadRequired err = true ->
  exchanger_exchange x1 (load_request s) = (Failed loadErr, x2) ->
  (1 <= fuel)%nat ->
  exists o,
    Script_Execute exchanger_exchange fuel s x0 name args result = Some o
    /\ out_err o = Some (rewriteJavaScriptStack s loadErr)
    /\ out_trace o = [req; load_request s]
    /\ count_command execute (out_trace o) = 1%nat
    /\ out_script o = s
    /\ errCount (out_script o) = errCount s.
Proof.
  intros req H0 Hoom Hlr H1 Hfuel.
  destruct fuel as [|fuel]; [lia|].
  unfold Script_Execute.
  rewrite (exchange_load_failed X exchanger_exchange _ _ _ _ _ _ _ _ _ _
             H0 Hoom Hlr H1).
  eexists. split; [reflexivity|]. simpl. repeat split.
Qed.

(** C5, as the code has it.  After a [Describe] or [Execute] call that
    returns, the counter is zero if the call succeeded; if it returned
    an error, the counter is zero unless the call ended on a failed
    automatic [load] (which leaves the counter alone) or on an
    out-of-memory error at the ceiling (which leaves it at 3 or more).
    The counter after the call is at most the larger of 3 and one more
    than the counter before it: at most 3 for a call that starts below
    the ceiling. *)
Theorem counter_after_call (s : Script) (x : X) (fuel : nat)
        (o : outcome X) :
  in_int (errCount s) ->
  (exists name args result,
      Script_Execute exchanger_exchange fuel s x name args result = Some o)
  \/ Script_Describe exchanger_exchange fuel s x = Some o ->
  (out_err o = None -> errCount (out_script o) = 0)
  /\ (forall err,
         out_err o = Some err ->
         errCount (out_script o) = 0
         \/ (forall d, req_command (last (out_trace o) d) = load)
         \/ (is_ErrOutOfMemory err = true
             /\ maxScriptErrors <= errCount (out_script o)))
  /\ errCount (out_script o) <= Z.max maxScriptErrors (errCount s + 1)
  /\ (errCount s < maxScriptErrors ->
      errCount (out_script o) <= maxScriptErrors).
Proof.
  intros Hint Hcall.
  assert (Hprops :
    (out_err o = None -> errCount (out_script o) = 0)
    /\ (forall err,
           out_err o = Some err ->
           errCount (out_script o) = 0
           \/ (forall d, req_command (last (out_trace o) d) = load)
           \/ (is_ErrOutOfMemory err = true
               /\ maxScriptErrors <= errCount (out_script o)))
    /\ errCount (out_script o) <= Z.max maxScriptErrors (errCount s + 1)).
  { destruct Hcall as [(name & args & result & Hrun)|Hrun].
    - unfold Script_Execute in Hrun.
      apply exchange_counter in Hrun; [tauto|discriminate|assumption].
    - unfold Script_Describe in Hrun.
      destruct (exchange exchanger_exchange fuel s x describe
                  (PSession (init_Session (init s))) (Some (AObject [])))
        as [o0|] eqn:E; [|discriminate].
      apply exchange_counter in E; [|discriminate|assumption].
      destruct (out_err o0) eqn:Herr; injection Hrun as <-; simpl;
        rewrite ?Herr; tauto. }
  destruct Hprops as (Hok & Herr & Hbound).
  repeat split; auto. unfold maxScriptErrors in *. lia.
Qed.

(** C6.  [N] out-of-memory replies that stay below the ceiling (on a
    fresh handle, [N < 3]) followed by a success make the call succeed
    and leave the counter at zero; a later call on which the exchanger
    reports out-of-memory is then retried until its third exchange
    before the out-of-memory error is returned. *)
Theorem counter_reset_on_success (s : Script) (x : X) (N : nat)
        (name : string) (args : option (list any)) (result : option any)
        (fuel : nat) :
  0 <= errCount s ->
  errCount s + Z.of_nat N < maxScriptErrors ->
  oom_then X exchanger_exchange N
    (ok_then X exchanger_exchange
       (oom_then X exchanger_exchange 3 (fun _ => True))) x ->
  (N + 1 <= fuel)%nat ->
  exists o1,
    Script_Execute exchanger_exchange fuel s x name args result = Some o1
    /\ out_err o1 = None
    /\ out_trace o1
       = repeat (the_request execute (execute_payload s name args) result)
                (N + 1)
    /\ errCount (out_script o1) = 0
    /\ forall (name' : string) (args' : option (list any))
              (result' : option any) (fuel' : nat),
        (3 <= fuel')%nat ->
        let req' := the_request execute
                      (execute_payload (out_script o1) name' args')
                      result' in
        exists o2 err,
          Script_Execute exchanger_exchange fuel' (out_script o1)
            (out_exchanger o1) name' args' result' = Some o2
          /\ out_trace o2 = [req'; req'; req']
          /\ out_err o2 = Some err
          /\ is_ErrOutOfMemory err = true.
Proof.
  intros H0 Hlt Hbehaviour Hfuel.
  destruct (exchange_oom_run X exchanger_exchange N s x execute
              (execute_payload s name args) result _ (fuel - N)
              H0 Hlt Hbehaviour) as (x1 & Hok & Hrun).
  replace (N + (fuel - N))%nat with fuel in Hrun by lia.
  destruct (Hok (the_request execute (execute_payload s name args) result))
    as (data & x2 & Hx & Hooms).
  destruct (fuel - N)%nat as [|rest] eqn:Hrest; [lia|].
  rewrite (exchange_success X exchanger_exchange _ _ _ _ _ _ _ _ Hx) in Hrun.
  unfold Script_Execute at 1. rewrite Hrun.
  eexists. split; [reflexivity|].
  cbn [out_err out_trace out_script out_exchanger out_result].
  split; [reflexivity|]. split; [|split; [reflexivity|]].
  - rewrite repeat_app. reflexivity.
  - intros name' args' result' fuel' Hfuel'.
    destruct (exchange_oom_ceiling X exchanger_exchange 2
                (set_errCount (set_errCount s (errCount s + Z.of_nat N)) 0)
                x2 execute
                (execute_payload
                   (set_errCount
                      (set_errCount s (errCount s + Z.of_nat N)) 0)
                   name' args')
                result' (fun _ => True) fuel')
      as (o2 & err & Hrun2 & Htrace & Herr & Hoom & _);
      try exact Hooms; try (simpl; lia).
    exists o2, err. unfold Script_Execute. rewrite Hrun2, Htrace. auto.
Qed.

End RecoveryClaims.

(** ** The claims at concrete exchangers *)

Lemma Execute_retry_ceiling_witness :
  let req := the_request execute
               (execute_payload Mock.fresh_script "main" None) None in
  exists o err,
    Script_Execute (Mock.constant (Failed ErrOutOfMemory)) 3
      Mock.fresh_script tt "main" None None = Some o
    /\ out_trace o = [req; req; req]
    /\ count_command execute (out_trace o) = 3%nat
    /\ count_command load (out_trace o) = 0%nat
    /\ out_err o = Some err
    /\ is_ErrOutOfMemory err = true.
Proof.
  apply (Execute_retry_ceiling unit (Mock.constant (Failed ErrOutOfMemory))
           Mock.fresh_script tt "main" None None 3).
  - intros x req. exists ErrOutOfMemory. split; reflexivity.
  - reflexivity.
  - apply le_n.
Defined.

Lemma exchange_ceiling_error_untranslated_witness :
  exists o,
    exchange (Mock.constant (Failed ErrOutOfMemory)) 1
      (set_errCount Mock.fresh_script 2) tt describe
      (PSession {| session := "session-1" |}) None = Some o
    /\ out_err o = Some ErrOutOfMemory
    /\ out_trace o
       = [the_request describe (PSession {| session := "session-1" |}) None]
    /\ ((forall jsErr, errors_As ErrOutOfMemory = Some jsErr ->
                       stack jsErr = EmptyString) ->
        out_err o
        = Some (rewriteJavaScriptStack (out_script o) ErrOutOfMemory)).
Proof.
  apply (exchange_ceiling_error_untranslated unit
           (Mock.constant (Failed ErrOutOfMemory))
           (set_errCount Mock.fresh_script 2) tt tt describe
           (PSession {| session := "session-1" |}) None ErrOutOfMemory 0).
  - reflexivity.
  - reflexivity.
  - vm_compute. discriminate.
Defined.

(** C2 as stated fails.  An error that is out-of-memory and carries a
    script error with a stack reaches the caller, at the ceiling, as the
    exchanger reported it, which is not its stack-translated form. *)
Lemma exchange_ceiling_error_translated_counterexample :
  let err :=
    Join ErrOutOfMemory
         (JsError {| message := "boom";
                     stack := "Error: boom
    at module.exports (vm.js:5:15)" |}) in
  exists o,
    Script_Execute (Mock.constant (Failed err)) 3 Mock.fresh_script tt
      "main" None None = Some o
    /\ is_ErrOutOfMemory err = true
    /\ errCount (out_script o) = maxScriptErrors
    /\ out_err o = Some err
    /\ rewriteJavaScriptStack (out_script o) err
       = JsError {| message := "boom";
                    stack := "boom
  at main (2:15)" |}
    /\ out_err o <> Some (rewriteJavaScriptStack (out_script o) err).
Proof.
  intros err. eexists. split; [vm_compute; reflexivity|].
  repeat split; try (vm_compute; reflexivity).
  vm_compute. discriminate.
Defined.

Lemma Execute_lazy_load_witness :
  let req := the_request execute
               (execute_payload Mock.fresh_script "main" None)
               (Some ANull) in
  let lreq := {| req_command := load;
                 req_payload := PInit (init Mock.fresh_script);
                 req_sink := false |} in
  exists o,
    Script_Execute Mock.scripted 2 Mock.fresh_script
      [Failed errLoadRequired; Done ANull; Done (ANumber 1)]
      "main" None (Some ANull) = Some o
    /\ out_err o = None
    /\ out_trace o = [req; lreq; req]
    /\ count_command load (out_trace o) = 1%nat
    /\ count_command execute (out_trace o) = 2%nat
    /\ out_result o = decode_into (Some ANull) (Done (ANumber 1))
    /\ out_exchanger o = []
    /\ errCount (out_script o) = 0.
Proof.
  apply (Execute_lazy_load (list reply) Mock.scripted Mock.fresh_script
           [Failed errLoadRequired; Done ANull; Done (ANumber 1)]
           [Done ANull; Done (ANumber 1)] [Done (ANumber 1)] []
           "main" None (Some ANull) errLoadRequired ANull (ANumber 1) 2);
    reflexivity.
Defined.

Lemma Execute_load_failure_witness :
  let s := set_errCount Mock.fresh_script 2 in
  let loadErr :=
    JsError {| message := "SyntaxError";
               stack := "SyntaxError: unexpected token
    at module.exports (vm.js:4:12)" |} in
  let req := the_request execute (execute_payload s "main" None) None in
  exists o,
    Script_Execute Mock.scripted 1 s
      [Failed errLoadRequired; Failed loadErr] "main" None None = Some o
    /\ out_err o = Some (rewriteJavaScriptStack s loadErr)
    /\ out_trace o = [req; load_request s]
    /\ count_command execute (out_trace o) = 1%nat
    /\ out_script o = s
    /\ errCount (out_script o) = errCount s.
Proof.
  intros s loadErr req.
  apply (Execute_load_failure (list reply) Mock.scripted s
           [Failed errLoadRequired; Failed loadErr] [Failed loadErr] []
           "main" None None errLoadRequired loadErr 1);
    reflexivity.
Defined.

Lemma counter_after_call_witness :
  exists o,
    Script_Execute Mock.scripted 4 Mock.fresh_script
      [Failed ErrOutOfMemory; Failed errLoadRequired; Done ANull;
       Failed (Opaque "connection reset")] "main" None None = Some o
    /\ (out_err o = None -> errCount (out_script o) = 0)
    /\ (forall err,
           out_err o = Some err ->
           errCount (out_script o) = 0
           \/ (forall d, req_command (last (out_trace o) d) = load)
           \/ (is_ErrOutOfMemory err = true
               /\ maxScriptErrors <= errCount (out_script o)))
    /\ errCount (out_script o)
       <= Z.max maxScriptErrors (errCount Mock.fresh_script + 1)
    /\ (errCount Mock.fresh_script < maxScriptErrors ->
        errCount (out_script o) <= maxScriptErrors).
Proof.
  eexists. split; [vm_compute; reflexivity|].
  apply (counter_after_call (list reply) Mock.scripted Mock.fresh_script
           [Failed ErrOutOfMemory; Failed errLoadRequired; Done ANull;
            Failed (Opaque "connection reset")] 4).
  - vm_compute. split; discriminate.
  - left. exists "main", None, None. vm_compute. reflexivity.
Defined.

(** C5 as stated fails twice.  A call that ends on a failed automatic
    [load] returns an error that is not out-of-memory and leaves the
    counter at 1; and on an exchanger that always reports out-of-memory
    the second call leaves the counter at 4. *)
Lemma counter_after_call_counterexample :
  (exists o,
      Script_Execute Mock.scripted 2 Mock.fresh_script
        [Failed ErrOutOfMemory; Failed errLoadRequired;
         Failed (Opaque "load failed")] "main" None None = Some o
      /\ out_err o = Some (Opaque "load failed")
      /\ is_ErrOutOfMemory (Opaque "load failed") = false
      /\ errCount (out_script o) = 1
      /\ errCount (out_script o) <> 0)
  /\ (exists o1 o2,
         Script_Execute (Mock.constant (Failed ErrOutOfMemory)) 3
           Mock.fresh_script tt "main" None None = Some o1
         /\ Script_Execute (Mock.constant (Failed ErrOutOfMemory)) 3
              (out_script o1) (out_exchanger o1) "main" None None = Some o2
         /\ errCount (out_script o2) = 4
         /\ ~ errCount (out_script o2) <= maxScriptErrors).
Proof.
  split.
  - eexists. split; [vm_compute; reflexivity|].
    repeat split; try (vm_compute; reflexivity). vm_compute. discriminate.
  - eexists. eexists. split; [vm_compute; reflexivity|].
    split; [vm_compute; reflexivity|].
    split; [vm_compute; reflexivity|].
    vm_compute. intros H. apply H. reflexivity.
Defined.

Lemma counter_reset_on_success_witness :
  exists o1,
    Script_Execute Mock.scripted 3 Mock.fresh_script
      [Failed ErrOutOfMemory; Failed ErrOutOfMemory; Done ANull;
       Failed ErrOutOfMemory; Failed ErrOutOfMemory; Failed ErrOutOfMemory]
      "main" None None = Some o1
    /\ out_err o1 = None
    /\ out_trace o1
       = repeat (the_request execute
                   (execute_payload Mock.fresh_script "main" None) None) 3
    /\ errCount (out_script o1) = 0
    /\ forall (name' : string) (args' : option (list any))
              (result' : option any) (fuel' : nat),
        (3 <= fuel')%nat ->
        let req' := the_request execute
                      (execute_payload (out_script o1) name' args')
                      result' in
        exists o2 err,
          Script_Execute Mock.scripted fuel' (out_script o1)
            (out_exchanger o1) name' args' result' = Some o2
          /\ out_trace o2 = [req'; req'; req']
          /\ out_err o2 = Some err
          /\ is_ErrOutOfMemory err = true.
Proof.
  apply (counter_reset_on_success (list reply) Mock.scripted
           Mock.fresh_script
           [Failed ErrOutOfMemory; Failed ErrOutOfMemory; Done ANull;
            Failed ErrOutOfMemory; Failed ErrOutOfMemory;
            Failed ErrOutOfMemory] 2 "main" None None 3).
  - vm_compute. discriminate.
  - vm_compute. reflexivity.
  - intros req. exists ErrOutOfMemory. eexists.
    split; [reflexivity|]. split; [reflexivity|].
    intros req1. exists ErrOutOfMemory. eexists.
    split; [reflexivity|]. split; [reflexivity|].
    intros req2. exists ANull. eexists. split; [reflexivity|].
    intros req3. exists ErrOutOfMemory. eexists.
    split; [reflexivity|]. split; [reflexivity|].
    intros req4. exists ErrOutOfMemory. eexists.
    split; [reflexivity|]. split; [reflexivity|].
    intros req5. exists ErrOutOfMemory. eexists.
    split; [reflexivity|]. split; [reflexivity|]. exact I.
  - apply le_n.
Defined.

(** ** The frame pattern *)

Lemma string_app_assoc (a b c : string) : (a ++ b) ++ c = a ++ b ++ c.
Proof. induction a as [|x a IH]; simpl; [reflexivity|now rewrite IH]. Qed.

Lemma string_app_nil_r (a : string) : a ++ "" = a.
Proof. induction a as [|x a IH]; simpl; [reflexivity|now rewrite IH]. Qed.

Lemma all_chars_app (p : ascii -> bool) (a b : string) :
  all_chars p (a ++ b) = all_chars p a && all_chars p b.
Proof.
  induction a as [|x a IH]; simpl; [reflexivity|].
  now rewrite IH, andb_assoc.
Qed.

Lemma consume_str_map (pre : string) :
  forall cs,
    consume_str pre cs
    = map (fun g : bool * string =>
             if fst g then (true, snd g ++ pre) else g) cs.
Proof.
  induction pre as [|c pre IH]; intros cs; simpl.
  - induction cs as [|[[] w] cs IHcs]; simpl; [reflexivity| |];
      rewrite <- IHcs; [now rewrite string_app_nil_r|reflexivity].
  - rewrite IH. unfold consume. rewrite map_map. apply map_ext.
    intros [[] w]; simpl; [|reflexivity].
    now rewrite string_app_assoc.
Qed.

(** *** The matcher, instruction by instruction *)

Lemma run_star_unfold (greedy : bool) (p : ascii -> bool) (rest : list inst)
      (s : string) (cs : caps) :
  run (IStar greedy p :: rest) s cs
  = if greedy then
      match s with
      | String c s' =>
          if p c then
            match run (IStar greedy p :: rest) s' (consume c cs) with
            | Some r => Some r
            | None => run rest s cs
            end
          else run rest s cs
      | EmptyString => run rest s cs
      end
    else
      match run rest s cs with
      | Some r => Some r
      | None =>
          match s with
          | String c s' =>
              if p c then run (IStar greedy p :: rest) s' (consume c cs)
              else None
          | EmptyString => None
          end
      end.
Proof. destruct s; reflexivity. Qed.

Lemma run_class_inv (p : ascii -> bool) (rest : list inst) (s : string)
      (cs r : caps) :
  run (IClass p :: rest) s cs = Some r ->
  exists c s',
    s = String c s' /\ p c = true /\ run rest s' (consume c cs) = Some r.
Proof.
  destruct s as [|c s']; simpl; [discriminate|].
  destruct (p c) eqn:E; [|discriminate]. intros H. exists c, s'. auto.
Qed.

(** A repetition consumes a prefix of bytes of its class, greedy or
    not. *)
Lemma run_star_inv (greedy : bool) (p : ascii -> bool) (rest : list inst)
      (s : string) :
  forall cs r,
    run (IStar greedy p :: rest) s cs = Some r ->
    exists pre post,
      s = pre ++ post
      /\ all_chars p pre = true
      /\ run rest post (consume_str pre cs) = Some r.
Proof.
  assert (Hhere : forall t cs r, run rest t cs = Some r ->
            exists pre post, t = pre ++ post /\ all_chars p pre = true
                             /\ run rest post (consume_str pre cs) = Some r).
  { intros t cs r H. exists "", t. auto. }
  induction s as [|c s IH]; intros cs r; rewrite run_star_unfold.
  - destruct greedy; [apply Hhere|].
    destruct (run rest "" cs) eqn:E; [|discriminate].
    intros H. injection H as <-. now apply Hhere.
  - assert (Hnext : run (IStar greedy p :: rest) s (consume c cs) = Some r ->
                    p c = true ->
              exists pre post, String c s = pre ++ post
                               /\ all_chars p pre = true
                               /\ run rest post (consume_str pre cs) = Some r).
    { intros H Hp. apply IH in H as (pre & post & -> & Hall & Hrun).
      exists (String c pre), post. simpl. rewrite Hp, Hall. auto. }
    destruct greedy.
    + destruct (p c) eqn:Hp; [|apply Hhere].
      destruct (run (IStar true p :: rest) s (consume c cs)) eqn:E;
        [|apply Hhere].
      intros H. injection H as <-. now apply Hnext.
    + destruct (run rest (String c s) cs) eqn:E.
      * intros H. injection H as <-. now apply Hhere.
      * destruct (p c) eqn:Hp; [|discriminate]. intros H. now apply Hnext.
Qed.

(** A repetition matches when what follows it matches after some
    prefix of bytes of its class. *)
Lemma run_star_intro (greedy : bool) (p : ascii -> bool) (rest : list inst)
      (pre post : string) :
  all_chars p pre = true ->
  forall cs,
    (forall cs', run rest post cs' <> None) ->
    run (IStar greedy p :: rest) (pre ++ post) cs <> None.
Proof.
  intros Hall. induction pre as [|c pre IH]; intros cs Hpost.
  - change ("" ++ post) with post. rewrite run_star_unfold. destruct greedy.
    + destruct post as [|c post]; [apply Hpost|].
      destruct (p c); [|apply Hpost].
      destruct (run (IStar true p :: rest) post (consume c cs));
        [discriminate|apply Hpost].
    + specialize (Hpost cs). destruct (run rest post cs);
        [discriminate|contradiction].
  - simpl in Hall. apply andb_true_iff in Hall as [Hc Hall].
    specialize (IH Hall (consume c cs) Hpost).
    change (String c pre ++ post) with (String c (pre ++ post)).
    rewrite run_star_unfold. rewrite Hc. destruct greedy.
    + destruct (run (IStar true p :: rest) (pre ++ post) (consume c cs));
        [discriminate|contradiction].
    + destruct (run rest (String c (pre ++ post)) cs); [discriminate|].
      exact IH.
Qed.

Lemma run_open (rest : list inst) (s : string) (cs : caps) :
  run (IOpen :: rest) s cs = run rest s (cs ++ [(true, EmptyString)])%list.
Proof. reflexivity. Qed.

Lemma run_close (rest : list inst) (s : string) (cs : caps) :
  run (IClose :: rest) s cs = run rest s (fst (close_last cs)).
Proof. reflexivity. Qed.

Lemma run_end_inv (s : string) (cs r : caps) :
  run [IEnd] s cs = Some r -> s = EmptyString /\ r = cs.
Proof.
  destruct s; simpl; [|discriminate]. intros H. injection H as <-. auto.
Qed.

Lemma run_class_intro (p : ascii -> bool) (rest : list inst) (c : ascii)
      (s : string) (cs : caps) :
  p c = true ->
  (forall cs', run rest s cs' <> None) ->
  run (IClass p :: rest) (String c s) cs <> None.
Proof. intros Hp H. simpl. rewrite Hp. apply H. Qed.

Ltac inv_lit H :=
  let c := fresh "c" in
  let t := fresh "t" in
  let E := fresh "E" in
  let Hc := fresh "Hc" in
  apply run_class_inv in H as (c & t & E & Hc & H);
  apply Ascii.eqb_eq in Hc; subst c; subst;
  cbn [consume map fst snd] in H.

Ltac inv_star H pre Hpre :=
  let post := fresh "t" in
  apply run_star_inv in H as (pre & post & -> & Hpre & H);
  rewrite consume_str_map in H; cbn [map fst snd] in H.

Ltac inv_class H c Hc :=
  let post := fresh "t" in
  apply run_class_inv in H as (c & post & -> & Hc & H);
  cbn [consume map fst snd] in H.

Ltac open_group H := rewrite run_open in H; cbn [app] in H.

Ltac close_group H := rewrite run_close in H; cbn [close_last fst snd] in H.

(** What the matcher accepts is a frame line, and the groups are its
    parts. *)
Lemma vmStackTraceLine_run_inv (line : string) (r : caps) :
  run vmStackTraceLine line [(true, EmptyString)] = Some r ->
  exists ws sp1 function sp2 row column,
    line = frame_line ws sp1 function sp2 row column
    /\ frame_parts ws sp1 function sp2 row column
    /\ map snd r = [line; function; row; column].
Proof.
  intros H.
  cbv [vmStackTraceLine lit plus group app map list_ascii_of_string] in H.
  inv_star H ws Hws. inv_lit H. inv_lit H. inv_class H sp1 Hsp1.
  open_group H. inv_star H f Hf. close_group H.
  inv_class H sp2 Hsp2.
  do 7 inv_lit H.
  open_group H. inv_class H d Hd. inv_star H ds Hds. close_group H.
  inv_lit H.
  open_group H. inv_class H e He. inv_star H es Hes. close_group H.
  inv_lit H.
  apply run_end_inv in H as [-> ->].
  exists ws, sp1, f, sp2, (String d ds), (String e es).
  split; [reflexivity|]. split.
  - unfold frame_parts. cbn [all_chars]. rewrite Hd, Hds, He, Hes.
    repeat split; auto; discriminate.
  - cbn [map snd]. repeat rewrite string_app_assoc. reflexivity.
Qed.

(** Every frame line is accepted. *)
Lemma vmStackTraceLine_run_intro (ws : string) (sp1 : ascii)
      (function : string) (sp2 : ascii) (row column : string) (cs : caps) :
  frame_parts ws sp1 function sp2 row column ->
  run vmStackTraceLine (frame_line ws sp1 function sp2 row column) cs
  <> None.
Proof.
  intros (Hws & Hsp1 & Hf & Hsp2 & Hr & Hrd & Hc & Hcd).
  destruct row as [|d ds]; [contradiction|].
  destruct column as [|e es]; [contradiction|].
  cbn [all_chars] in Hrd, Hcd.
  apply andb_true_iff in Hrd as [Hd Hds].
  apply andb_true_iff in Hcd as [He Hes].
  cbv [vmStackTraceLine lit plus group app map list_ascii_of_string].
  unfold frame_line. cbn [String.append].
  apply run_star_intro; [exact Hws|]. intros cs0.
  do 2 (apply run_class_intro; [reflexivity|]; intros ?).
  apply run_class_intro; [exact Hsp1|]. intros cs1.
  rewrite run_open. apply run_star_intro; [exact Hf|]. intros cs2.
  rewrite run_close.
  apply run_class_intro; [exact Hsp2|]. intros cs3.
  do 7 (apply run_class_intro; [reflexivity|]; intros ?).
  rewrite run_open. apply run_class_intro; [exact Hd|]. intros cs4.
  apply run_star_intro; [exact Hds|]. intros cs5.
  rewrite run_close. apply run_class_intro; [reflexivity|]. intros cs6.
  rewrite run_open. apply run_class_intro; [exact He|]. intros cs7.
  apply run_star_intro; [exact Hes|]. intros cs8.
  rewrite run_close. apply run_class_intro; [reflexivity|]. intros cs9.
  simpl. discriminate.
Qed.

(** *** A frame line has one decomposition *)

(** Two prefixes of a class, each followed by a byte outside it. *)
Lemma span_unique (p : ascii -> bool) (a : string) :
  forall (b : string) (x y : ascii) (s t : string),
    all_chars p a = true -> all_chars p b = true ->
    p x = false -> p y = false ->
    a ++ String x s = b ++ String y t ->
    a = b /\ String x s = String y t.
Proof.
  induction a as [|c a IH]; intros b x y s t Ha Hb Hx Hy E.
  - destruct b as [|d b]; [auto|]. simpl in E, Hb. injection E as -> _.
    apply andb_true_iff in Hb as [Hd _]. congruence.
  - simpl in Ha. apply andb_true_iff in Ha as [Hc Ha].
    destruct b as [|d b]; simpl in E, Hb.
    + injection E as -> _. congruence.
    + injection E as -> E. apply andb_true_iff in Hb as [_ Hb].
      destruct (IH b x y s t Ha Hb Hx Hy E) as [-> E']. auto.
Qed.

Lemma app_eq_split (a : string) :
  forall b s t : string,
    a ++ s = b ++ t ->
    exists u, (a = b ++ u /\ u ++ s = t) \/ (b = a ++ u /\ s = u ++ t).
Proof.
  induction a as [|c a IH]; intros b s t E.
  - exists b. right. auto.
  - destruct b as [|d b].
    + exists (String c a). left. auto.
    + simpl in E. injection E as -> E.
      destruct (IH b s t E) as (u & [[-> Hu]|[-> Hu]]); exists u;
        [left|right]; auto.
Qed.

Lemma digits_not_paren (s : string) :
  all_chars is_digit s = true -> all_chars not_paren s = true.
Proof.
  induction s as [|c s IH]; simpl; [reflexivity|].
  intros H. apply andb_true_iff in H as [Hc Hs].
  rewrite (IH Hs), andb_true_r. unfold not_paren.
  destruct (Ascii.eqb_spec c "(") as [->|]; [discriminate Hc|reflexivity].
Qed.

(** The position part of a frame line does not occur behind a longer
    function part: its opening parenthesis is the only one. *)
Lemma position_suffix_unique (u : string) (sp sp' : ascii)
      (row column row' column' : string) :
  perl_space sp = true ->
  all_chars is_digit row' = true -> all_chars is_digit column' = true ->
  u ++ String sp ("(vm.js:" ++ row ++ ":" ++ column ++ ")")
  = String sp' ("(vm.js:" ++ row' ++ ":" ++ column' ++ ")") ->
  u = EmptyString.
Proof.
  intros Hsp Hr Hc E. destruct u as [|x u]; [reflexivity|]. exfalso.
  simpl in E. injection E as _ E. destruct u as [|y u]; simpl in E.
  - injection E as -> _. discriminate Hsp.
  - injection E as _ E.
    apply (f_equal (all_chars not_paren)) in E.
    rewrite all_chars_app in E. simpl in E.
    rewrite !all_chars_app in E. simpl in E.
    rewrite !all_chars_app in E. simpl in E.
    rewrite (digits_not_paren _ Hr), (digits_not_paren _ Hc) in E.
    simpl in E. rewrite !andb_false_r in E. discriminate.
Qed.

Lemma frame_line_unique (ws ws' : string) (sp1 sp1' : ascii)
      (f f' : string) (sp2 sp2' : ascii) (row row' column column' : string) :
  frame_parts ws sp1 f sp2 row column ->
  frame_parts ws' sp1' f' sp2' row' column' ->
  frame_line ws sp1 f sp2 row column
  = frame_line ws' sp1' f' sp2' row' column' ->
  f = f' /\ row = row' /\ column = column'.
Proof.
  intros (Hws & Hsp1 & Hf & Hsp2 & Hr & Hrd & Hc & Hcd)
         (Hws' & Hsp1' & Hf' & Hsp2' & Hr' & Hrd' & Hc' & Hcd') E.
  unfold frame_line in E. cbn [String.append] in E.
  apply (span_unique perl_space) in E as [_ E]; try assumption;
    try reflexivity.
  injection E as _ E.
  assert (Hff : f = f'
                /\ String sp2 ("(vm.js:" ++ row ++ ":" ++ column ++ ")")
                   = String sp2' ("(vm.js:" ++ row' ++ ":" ++ column' ++ ")")).
  { apply app_eq_split in E as (u & [[-> Hu]|[-> Hu]]).
    - apply position_suffix_unique in Hu as Hnil; try assumption.
      subst u. simpl in Hu. now rewrite string_app_nil_r.
    - symmetry in Hu. apply position_suffix_unique in Hu as Hnil;
        try assumption.
      subst u. simpl in Hu. now rewrite string_app_nil_r. }
  destruct Hff as [-> E']. split; [reflexivity|].
  cbn [String.append] in E'. injection E' as _ E'.
  apply (span_unique is_digit) in E' as [-> E']; try assumption;
    try reflexivity.
  split; [reflexivity|]. injection E' as E'.
  apply (span_unique is_digit) in E' as [-> _]; try assumption;
    reflexivity.
Qed.

(** X1.  A line that matches the frame pattern is a frame line: blanks,
    [at], a blank, a function part without newline, a blank and
    [(vm.js:row:column)] with two non-empty digit strings; the
    submatches are the line and these three parts. *)
Theorem vmStackTraceLine_sound (line : string) :
  FindStringSubmatch vmStackTraceLine line <> [] ->
  exists ws sp1 function sp2 row column,
    line = frame_line ws sp1 function sp2 row column
    /\ frame_parts ws sp1 function sp2 row column
    /\ FindStringSubmatch vmStackTraceLine line
       = [line; function; row; column].
Proof.
  unfold FindStringSubmatch.
  destruct (run vmStackTraceLine line [(true, "")]) as [r|] eqn:E;
    [|contradiction].
  intros _. now apply vmStackTraceLine_run_inv.
Qed.

Lemma vmStackTraceLine_sound_witness :
  exists ws sp1 function sp2 row column,
    "    at processEvent (vm.js:12:7)"
    = frame_line ws sp1 function sp2 row column
    /\ frame_parts ws sp1 function sp2 row column
    /\ FindStringSubmatch vmStackTraceLine "    at processEvent (vm.js:12:7)"
       = ["    at processEvent (vm.js:12:7)"; function; row; column].
Proof.
  apply (vmStackTraceLine_sound "    at processEvent (vm.js:12:7)").
  vm_compute. discriminate.
Defined.

Lemma FindStringSubmatch_frame_line (ws : string) (sp1 : ascii)
      (function : string) (sp2 : ascii) (row column : string) :
  frame_parts ws sp1 function sp2 row column ->
  FindStringSubmatch vmStackTraceLine
    (frame_line ws sp1 function sp2 row column)
  = [frame_line ws sp1 function sp2 row column; function; row; column].
Proof.
  intros Hparts. unfold FindStringSubmatch.
  pose proof (vmStackTraceLine_run_intro ws sp1 function sp2 row column
                [(true, "")] Hparts) as Hsome.
  destruct (run vmStackTraceLine _ [(true, "")]) as [r|] eqn:E;
    [|contradiction].
  apply vmStackTraceLine_run_inv in E
    as (ws' & sp1' & f' & sp2' & row' & col' & Hline & Hparts' & Hr).
  destruct (frame_line_unique _ _ _ _ _ _ _ _ _ _ _ _ Hparts Hparts' Hline)
    as (-> & -> & ->).
  rewrite Hr. reflexivity.
Qed.

(** X2.  Every frame line matches the frame pattern, and the submatches
    are the whole line, the function part (up to the blank before the
    last [(vm.js:]), the row digits and the column digits. *)
Theorem vmStackTraceLine_exact (ws : string) (sp1 : ascii)
        (function : string) (sp2 : ascii) (row column : string) :
  frame_parts ws sp1 function sp2 row column ->
  FindStringSubmatch vmStackTraceLine
    (frame_line ws sp1 function sp2 row column)
  = [frame_line ws sp1 function sp2 row column; function; row; column].
Proof.
  intros Hparts. unfold FindStringSubmatch.
  pose proof (vmStackTraceLine_run_intro ws sp1 function sp2 row column
                [(true, "")] Hparts) as Hsome.
  destruct (run vmStackTraceLine _ [(true, "")]) as [r|] eqn:E;
    [|contradiction].
  apply vmStackTraceLine_run_inv in E
    as (ws' & sp1' & f' & sp2' & row' & col' & Hline & Hparts' & Hr).
  destruct (frame_line_unique _ _ _ _ _ _ _ _ _ _ _ _ Hparts Hparts' Hline)
    as (-> & -> & ->).
  rewrite Hr. reflexivity.
Qed.

Lemma vmStackTraceLine_exact_witness :
  FindStringSubmatch vmStackTraceLine
    (frame_line "  " " " "new Foo (vm.js:1:2)" " " "30" "4")
  = [frame_line "  " " " "new Foo (vm.js:1:2)" " " "30" "4";
     "new Foo (vm.js:1:2)"; "30"; "4"].
Proof.
  apply (vmStackTraceLine_exact "  " " " "new Foo (vm.js:1:2)" " " "30" "4").
  unfold frame_parts. repeat split; try reflexivity; discriminate.
Defined.

(** X3.  What the translator does with a frame line below the header:
    the function part is kept, [module.exports] becoming [main]; the row
    is the row digits minus [rowOffset + 1 + number of includes]; a
    negative row abandons the translation; the column is the column
    digits, minus [colOffset] on row 1 only. *)
Theorem rewriteLine_frame_line (s : Script) (i : nat) (ws : string)
        (sp1 : ascii) (function : string) (sp2 : ascii)
        (row column : string) :
  (1 <= i)%nat ->
  frame_parts ws sp1 function sp2 row column ->
  let r := int_sub (strconv_Atoi row)
                   (int_add (int_add (rowOffset s) 1)
                            (Z.of_nat (List.length (Includes (init s))))) in
  let c := if r =? 1 then int_sub (strconv_Atoi column) (colOffset s)
           else strconv_Atoi column in
  let name := if String.eqb function "module.exports" then "main"
              else function in
  rewriteLine s i (frame_line ws sp1 function sp2 row column)
  = if r <? 0 then ReturnErr
    else Append ("  at " ++ name ++ " (" ++ fmt_d r ++ ":" ++ fmt_d c ++ ")").
Proof.
  intros Hi Hparts r c name.
  rewrite rewriteLine_frame;
    rewrite ?FindStringSubmatch_frame_line by assumption;
    [reflexivity|assumption|discriminate].
Qed.

Lemma rewriteLine_frame_line_witness :
  rewriteLine Mock.fresh_script 3
    (frame_line "    " " " "module.exports" " " "4" "25")
  = Append "  at main (1:15)".
Proof.
  apply (rewriteLine_frame_line Mock.fresh_script 3
           "    " " " "module.exports" " " "4" "25").
  - repeat constructor.
  - unfold frame_parts. repeat split; try reflexivity; discriminate.
Defined.

(** ** The translated stack as a whole *)

Lemma rewriteLine_cases (s : Script) (i : nat) (line : string) :
  (1 <= i)%nat ->
  rewriteLine s i line
  = if is_frame line then
      if frame_row s line <? 0 then ReturnErr
      else Append (translate_frame s line)
    else Continue.
Proof.
  intros Hi. unfold rewriteLine, is_frame, frame_row, translate_frame.
  destruct i as [|i]; [lia|]. cbn [Nat.eqb].
  destruct (Nat.eqb (List.length (FindStringSubmatch vmStackTraceLine line)) 0);
    reflexivity.
Qed.

(** Without a negative row, the loop emits the frame of every frame
    line, in the order of the lines, and drops the other lines. *)
Lemma rewriteLines_frames (s : Script) (lines : list string) :
  forall (i : nat) (acc : list string),
    (1 <= i)%nat ->
    Forall (fun l => is_frame l = true -> 0 <= frame_row s l) lines ->
    rewriteLines s i lines acc
    = Some (acc ++ map (translate_frame s) (filter is_frame lines))%list.
Proof.
  induction lines as [|l rest IH]; intros i acc Hi Hall; cbn [rewriteLines].
  - cbn [filter map]. now rewrite app_nil_r.
  - apply Forall_cons_iff in Hall as [Hl Hrest].
    rewrite rewriteLine_cases by assumption. cbn [filter].
    destruct (is_frame l) eqn:Hframe.
    + specialize (Hl eq_refl). apply Z.ltb_ge in Hl. rewrite Hl.
      rewrite IH by (assumption || lia). cbn [map].
      now rewrite <- app_assoc.
    + apply IH; [lia|assumption].
Qed.

(** X4.  When no frame line below the header has a negative corrected
    row, the translated stack is the message followed by the frames of
    all the frame lines below the header, one per line and in their
    order; every other line is dropped. *)
Theorem rewriteJavaScriptStack_frames (s : Script) (err : error)
        (jsErr : jsError) :
  errors_As err = Some jsErr ->
  stack jsErr <> EmptyString ->
  let lines := strings_Split (stack jsErr) newline in
  Forall (fun l => is_frame l = true -> 0 <= frame_row s l) (tl lines) ->
  rewriteJavaScriptStack s err
  = JsError {| message := message jsErr;
               stack := strings_Trim
                          (message jsErr ++ String newline ""
                           ++ strings_Join
                                (map (translate_frame s)
                                     (filter is_frame (tl lines)))
                                (String newline ""))
                          newline |}.
Proof.
  intros Has Hstack lines Hall. unfold rewriteJavaScriptStack.
  rewrite Has. destruct (String.eqb_spec (stack jsErr) "") as [E|_];
    [contradiction|].
  cbv zeta. fold lines.
  destruct lines as [|header rest] eqn:Hlines.
  - now apply strings_Split_nonempty in Hlines.
  - cbn [tl] in Hall |- *. cbn [rewriteLines].
    rewrite rewriteLine_header.
    rewrite (rewriteLines_frames s rest 1 [] (le_n 1) Hall). reflexivity.
Qed.

Lemma rewriteJavaScriptStack_frames_witness :
  rewriteJavaScriptStack Mock.fresh_script
    (Wrap "execute"
       (JsError {| message := "TypeError: x is undefined";
                   stack := "TypeError: x is undefined
    at helper (vm.js:9:3)
    at Array.map (<anonymous>)
    at module.exports (vm.js:4:20)" |}))
  = JsError {| message := "TypeError: x is undefined";
               stack := "TypeError: x is undefined
  at helper (6:3)
  at main (1:10)" |}.
Proof.
  assert (Hall : Forall (fun l => is_frame l = true
                                  -> 0 <= frame_row Mock.fresh_script l)
                        ["    at helper (vm.js:9:3)";
                         "    at Array.map (<anonymous>)";
                         "    at module.exports (vm.js:4:20)"]).
  { apply Forall_cons; [intros _; vm_compute; discriminate|].
    apply Forall_cons; [intros H; vm_compute in H; discriminate H|].
    apply Forall_cons; [intros _; vm_compute; discriminate|].
    apply Forall_nil. }
  pose proof (rewriteJavaScriptStack_frames Mock.fresh_script
                (Wrap "execute"
                   (JsError {| message := "TypeError: x is undefined";
                               stack := "TypeError: x is undefined
    at helper (vm.js:9:3)
    at Array.map (<anonymous>)
    at module.exports (vm.js:4:20)" |}))
                {| message := "TypeError: x is undefined";
                   stack := "TypeError: x is undefined
    at helper (vm.js:9:3)
    at Array.map (<anonymous>)
    at module.exports (vm.js:4:20)" |}
                eq_refl ltac:(discriminate) Hall) as H.
  vm_compute in H. vm_compute. exact H.
Defined.

Lemma trim_left_no_lead (s : string) (c : ascii) :
  forall t, trim_left s c <> String c t.
Proof.
  induction s as [|a s IH]; intros t; simpl; [discriminate|].
  destruct (Ascii.eqb_spec a c) as [->|Hne]; [apply IH|].
  intros E. injection E as E _. contradiction.
Qed.

Lemma trim_right_keeps_head (s : string) (c : ascii) :
  (forall t, s <> String c t) -> forall t, trim_right s c <> String c t.
Proof.
  intros Hs t. destruct s as [|a s]; simpl; [discriminate|].
  assert (Hne : a <> c) by (intros ->; now apply (Hs s)).
  apply Ascii.eqb_neq in Hne as Hb.
  destruct (trim_right s c); rewrite ?Hb; intros E; injection E as E _;
    contradiction.
Qed.

Lemma trim_right_no_trail (s : string) (c : ascii) :
  forall t, trim_right s c <> t ++ String c "".
Proof.
  induction s as [|a s IH]; intros t; simpl.
  - destruct t; discriminate.
  - destruct (trim_right s c) as [|b r] eqn:E.
    + destruct (Ascii.eqb_spec a c) as [->|Hne].
      * destruct t; discriminate.
      * destruct t as [|x [|y t]]; simpl; try discriminate.
        intros H. injection H as H. contradiction.
    + destruct t as [|x t]; simpl; [discriminate|].
      intros H. injection H as _ H. now apply (IH t).
Qed.

(** X5.  The translator either returns the error it was given or a bare
    script error with the message of the one it found in it and a new
    stack that neither starts nor ends with a newline. *)
Theorem rewriteJavaScriptStack_shape (s : Script) (err : error) :
  rewriteJavaScriptStack s err = err
  \/ exists jsErr stack',
      errors_As err = Some jsErr
      /\ rewriteJavaScriptStack s err
         = JsError {| message := message jsErr; stack := stack' |}
      /\ (forall t, stack' <> String newline t)
      /\ (forall t, stack' <> t ++ String newline "").
Proof.
  unfold rewriteJavaScriptStack.
  destruct (errors_As err) as [jsErr|]; [|now left].
  destruct (String.eqb (stack jsErr) ""); [now left|]. cbv zeta.
  destruct (rewriteLines s 0 _ []) as [frames|]; [|now left].
  right. eexists jsErr, _. split; [reflexivity|]. split; [reflexivity|].
  unfold strings_Trim. split.
  - apply trim_right_keeps_head, trim_left_no_lead.
  - apply trim_right_no_trail.
Qed.

(** ** More on the recovery state machine *)

Lemma the_request_decode_into (cmd : command) (pl : payload)
      (result : option any) (r : reply) :
  the_request cmd pl (decode_into result r) = the_request cmd pl result.
Proof. destruct result, r; reflexivity. Qed.

Lemma command_eqb_refl (c : command) : command_eqb c c = true.
Proof. destruct c; reflexivity. Qed.

Lemma command_eqb_load (c : command) : c <> load -> command_eqb c load = false.
Proof. destruct c; intros H; try reflexivity. contradiction. Qed.

Lemma count_command_cons (c : command) (r : request) (t : list request) :
  count_command c (r :: t)
  = ((if command_eqb (req_command r) c then 1 else 0) + count_command c t)%nat.
Proof.
  unfold count_command. cbn [filter].
  destruct (command_eqb (req_command r) c); reflexivity.
Qed.

Section RecoveryInvariants.

Variable X : Type.
Variable exchanger_exchange : X -> request -> reply * X.

Lemma after_inv (l : list request) (o' : option (outcome X))
      (o : outcome X) :
  after l o' = Some o ->
  exists o0,
    o' = Some o0
    /\ out_script o = out_script o0
    /\ out_exchanger o = out_exchanger o0
    /\ out_trace o = (l ++ out_trace o0)%list
    /\ out_result o = out_result o0
    /\ out_err o = out_err o0.
Proof.
  destruct o' as [o0|]; simpl; [|discriminate].
  intros H. injection H as <-. exists o0. cbn. auto 10.
Qed.

(** What every call of [exchange] that returns keeps: the descriptor and
    the offsets of the handle, the shape of the trace and whether there
    is a result sink. *)
Lemma exchange_invariants (fuel : nat) :
  forall (s : Script) (x : X) (cmd : command) (pl : payload)
         (result : option any) (o : outcome X),
    exchange exchanger_exchange fuel s x cmd pl result = Some o ->
    (init (out_script o) = init s
     /\ colOffset (out_script o) = colOffset s
     /\ rowOffset (out_script o) = rowOffset s)
    /\ hd_error (out_trace o) = Some (the_request cmd pl result)
    /\ Forall (fun r => r = the_request cmd pl result \/ r = load_request s)
              (out_trace o)
    /\ is_some (out_result o) = is_some result.
Proof.
  induction fuel as [|fuel IH]; intros s x cmd pl result o Hrun;
    [discriminate|].
  simpl in Hrun.
  destruct (exchanger_exchange x (the_request cmd pl result)) as [r x1].
  assert (Hsink : is_some (decode_into result r) = is_some result)
    by (destruct result, r; reflexivity).
  pose proof (the_request_decode_into cmd pl result r) as Hreq.
  destruct r as [data|err]; cbn [reply_err] in Hrun.
  - injection Hrun as <-. cbn. repeat split; auto.
  - destruct (is_ErrOutOfMemory err).
    + destruct (maxScriptErrors <=? _).
      * injection Hrun as <-. cbn. repeat split; auto.
      * apply after_inv in Hrun as (o0 & Hrun & Hs & _ & Ht & Hr & _).
        apply IH in Hrun as (Hd & Hhd & Hall & Hsk).
        cbn [errCount init colOffset rowOffset set_errCount] in Hd.
        rewrite Hreq in Hall. rewrite Hs, Ht, Hr.
        split; [exact Hd|]. split; [reflexivity|].
        split; [|congruence].
        constructor; [now left|exact Hall].
    + destruct (is_errLoadRequired err).
      * destruct (exchanger_exchange x1 (load_request s)) as [r2 x2].
        destruct r2 as [data2|err2]; cbn [reply_err] in Hrun.
        -- apply after_inv in Hrun as (o0 & Hrun & Hs & _ & Ht & Hr & _).
           apply IH in Hrun as (Hd & Hhd & Hall & Hsk).
           rewrite Hreq in Hall. rewrite Hs, Ht, Hr.
           split; [exact Hd|]. split; [reflexivity|].
           split; [|congruence].
           constructor; [now left|]. constructor; [now right|exact Hall].
        -- injection Hrun as <-. cbn. repeat split; auto.
      * injection Hrun as <-. cbn. repeat split; auto.
Qed.

(** With a counter in [0, int_max), the command is exchanged at most
    once per successful load plus once per out-of-memory reply that the
    budget still allows, plus the exchange that ends the call. *)
Lemma exchange_budget (fuel : nat) :
  forall (s : Script) (x : X) (cmd : command) (pl : payload)
         (result : option any) (o : outcome X),
    cmd <> load ->
    0 <= errCount s < int_max ->
    exchange exchanger_exchange fuel s x cmd pl result = Some o ->
    (count_command cmd (out_trace o)
     <= count_command load (out_trace o)
        + Z.to_nat (Z.max 1 (maxScriptErrors - errCount s)))%nat.
Proof.
  unfold maxScriptErrors.
  induction fuel as [|fuel IH]; intros s x cmd pl result o Hcmd Hc Hrun;
    [discriminate|].
  simpl in Hrun.
  destruct (exchanger_exchange x (the_request cmd pl result)) as [r x1].
  assert (Hone : forall t,
             count_command cmd (the_request cmd pl result :: t)
             = S (count_command cmd t)
             /\ count_command load (the_request cmd pl result :: t)
                = count_command load t).
  { intros t. rewrite !count_command_cons. cbn [the_request req_command].
    now rewrite command_eqb_refl, (command_eqb_load cmd Hcmd). }
  assert (Hload : forall t,
             count_command cmd (load_request s :: t) = count_command cmd t
             /\ count_command load (load_request s :: t)
                = S (count_command load t)).
  { intros t. rewrite !count_command_cons. cbn [load_request req_command].
    destruct cmd; try contradiction; auto. }
  assert (Hnil : forall c, count_command c [] = 0%nat) by reflexivity.
  destruct r as [data|err]; cbn [reply_err] in Hrun.
  - injection Hrun as <-. cbn [out_trace].
    destruct (Hone []) as [-> ->]. rewrite !Hnil. lia.
  - assert (Hadd : int_add (errCount s) 1 = errCount s + 1).
    { apply int_wrap_small. unfold in_int, int_min, int_max in *. lia. }
    destruct (is_ErrOutOfMemory err).
    + rewrite Hadd in Hrun.
      destruct (maxScriptErrors <=? errCount s + 1) eqn:Hmax;
        unfold maxScriptErrors in Hmax.
      * injection Hrun as <-. cbn [out_trace].
        destruct (Hone []) as [-> ->]. rewrite !Hnil. lia.
      * apply Z.leb_gt in Hmax.
        apply after_inv in Hrun as (o0 & Hrun & _ & _ & Ht & _ & _).
        apply IH in Hrun; [|assumption|cbn [errCount set_errCount];
                            unfold int_max in *; lia].
        cbn [errCount set_errCount] in Hrun. rewrite Ht. cbn [app].
        destruct (Hone (out_trace o0)) as [-> ->]. lia.
    + destruct (is_errLoadRequired err).
      * destruct (exchanger_exchange x1 (load_request s)) as [r2 x2].
        destruct r2 as [data2|err2]; cbn [reply_err] in Hrun.
        -- apply after_inv in Hrun as (o0 & Hrun & _ & _ & Ht & _ & _).
           apply IH in Hrun; [|assumption|assumption].
           rewrite Ht. cbn [app].
           destruct (Hone (load_request s :: out_trace o0)) as [-> ->].
           destruct (Hload (out_trace o0)) as [-> ->]. lia.
        -- injection Hrun as <-. cbn [out_trace].
           destruct (Hone [load_request s]) as [-> ->].
           destruct (Hload []) as [-> ->]. rewrite !Hnil. lia.
      * injection Hrun as <-. cbn [out_trace].
        destruct (Hone []) as [-> ->]. rewrite !Hnil. lia.
Qed.

(** An exchanger that never reports load-required lets every call
    return: with a counter in [0, int_max), [k + 1] exchanges are enough
    when [k] more out-of-memory replies reach the ceiling. *)
Lemma exchange_returns (k : nat) :
  forall (s : Script) (x : X) (cmd : command) (pl : payload)
         (result : option any) (fuel : nat),
    (forall x req err x',
        exchanger_exchange x req = (Failed err, x') ->
        is_ErrOutOfMemory err = false -> is_errLoadRequired err = false) ->
    0 <= errCount s < int_max ->
    maxScriptErrors - 1 <= errCount s + Z.of_nat k ->
    (S k <= fuel)%nat ->
    exists o,
      exchange exchanger_exchange fuel s x cmd pl result = Some o
      /\ out_trace o
         = repeat (the_request cmd pl result) (List.length (out_trace o))
      /\ (List.length (out_trace o) <= S k)%nat.
Proof.
  unfold maxScriptErrors.
  induction k as [|k IH]; intros s x cmd pl result fuel Hnolr Hc Hk Hfuel;
    (destruct fuel as [|fuel]; [lia|]); simpl;
    destruct (exchanger_exchange x (the_request cmd pl result))
      as [r x1] eqn:Hx;
    pose proof (the_request_decode_into cmd pl result r) as Hreq;
    (assert (Hadd : int_add (errCount s) 1 = errCount s + 1)
      by (apply int_wrap_small; unfold in_int, int_min, int_max in *; lia));
    (destruct r as [data|err]; cbn [reply_err];
     [eexists; split; [reflexivity|]; cbn; split; [reflexivity|lia]|]);
    (destruct (is_ErrOutOfMemory err) eqn:Hoom;
     [|rewrite (Hnolr _ _ _ _ Hx Hoom);
       eexists; split; [reflexivity|]; cbn; split; [reflexivity|lia]]);
    rewrite Hadd;
    (destruct (maxScriptErrors <=? errCount s + 1) eqn:Hmax;
     unfold maxScriptErrors in Hmax;
     [eexists; split; [reflexivity|]; cbn; split; [reflexivity|lia]|]);
    apply Z.leb_gt in Hmax.
  - lia.
  - destruct (IH (set_errCount s (errCount s + 1)) x1 cmd pl
                 (decode_into result (Failed err)) fuel Hnolr)
      as (o & Hrun & Htrace & Hlen);
      cbn [errCount set_errCount]; try (unfold int_max in *; lia).
    rewrite Hrun. eexists. split; [reflexivity|]. cbn.
    rewrite Hreq in Htrace. split; [|lia]. f_equal. exact Htrace.
Qed.

(** On an exchanger that answers load-required to the command and
    accepts every [load], [exchange] reloads and retries without end. *)
Lemma exchange_reload_loop (fuel : nat) :
  forall (s : Script) (x : X) (cmd : command) (pl : payload)
         (result : option any),
    cmd <> load ->
    (forall x req,
        req_command req <> load ->
        exists err x',
          exchanger_exchange x req = (Failed err, x')
          /\ is_ErrOutOfMemory err = false
          /\ is_errLoadRequired err = true) ->
    (forall x req,
        req_command req = load ->
        exists data x', exchanger_exchange x req = (Done data, x')) ->
    exchange exchanger_exchange fuel s x cmd pl result = None.
Proof.
  induction fuel as [|fuel IH]; intros s x cmd pl result Hcmd Hlr Hload;
    [reflexivity|].
  simpl.
  destruct (Hlr x (the_request cmd pl result) Hcmd)
    as (err & x1 & -> & Hoom & Hreq).
  cbn [reply_err]. rewrite Hoom, Hreq.
  destruct (Hload x1 (load_request s) eq_refl) as (data & x2 & ->).
  cbn [reply_err]. rewrite IH by assumption. reflexivity.
Qed.

End RecoveryInvariants.

(** ** Properties of [Describe] and [Execute] *)

Section Calls.

Variable X : Type.
Variable exchanger_exchange : X -> request -> reply * X.

Lemma Script_Describe_inv (fuel : nat) (s : Script) (x : X) (o : outcome X) :
  Script_Describe exchanger_exchange fuel s x = Some o ->
  exists o0,
    exchange exchanger_exchange fuel s x describe
      (PSession (init_Session (init s))) (Some (AObject [])) = Some o0
    /\ out_script o = out_script o0
    /\ out_exchanger o = out_exchanger o0
    /\ out_trace o = out_trace o0
    /\ out_err o = out_err o0
    /\ out_result o = match out_err o0 with
                      | Some _ => None
                      | None => out_result o0
                      end.
Proof.
  unfold Script_Describe.
  destruct (exchange _ _ _ _ _ _ _) as [o0|]; [|discriminate].
  intros H. exists o0. split; [reflexivity|].
  destruct (out_err o0) eqn:E; injection H as <-; cbn; rewrite ?E; auto 10.
Qed.

(** X6.  A call changes nothing of the handle but the failure counter:
    the session descriptor and the row and column offsets after a
    [Describe] or [Execute] call are those before it. *)
Theorem call_preserves_descriptor (s : Script) (x : X) (fuel : nat)
        (o : outcome X) :
  (exists name args result,
      Script_Execute exchanger_exchange fuel s x name args result = Some o)
  \/ Script_Describe exchanger_exchange fuel s x = Some o ->
  out_script o = set_errCount s (errCount (out_script o)).
Proof.
  intros Hcall.
  assert (H : init (out_script o) = init s
              /\ colOffset (out_script o) = colOffset s
              /\ rowOffset (out_script o) = rowOffset s).
  { destruct Hcall as [(name & args & result & Hrun)|Hrun].
    - now apply exchange_invariants in Hrun.
    - apply Script_Describe_inv in Hrun as (o0 & Hrun & -> & _).
      now apply exchange_invariants in Hrun. }
  destruct H as (Hi & Hc & Hr). destruct (out_script o) as [i c r e].
  cbn in *. subst. reflexivity.
Qed.

(** X7.  The exchanges of a call are the request of the call (the same
    command, payload and result sink each time), which comes first, and
    [load] requests that carry the [Init] of the handle without a result
    sink; nothing else is ever exchanged. *)
Theorem call_trace_shape (s : Script) (x : X) (fuel : nat) (o : outcome X)
        (req : request) :
  (exists name args result,
      req = the_request execute (execute_payload s name args) result
      /\ Script_Execute exchanger_exchange fuel s x name args result = Some o)
  \/ (req = the_request describe (PSession (init_Session (init s)))
                        (Some (AObject []))
      /\ Script_Describe exchanger_exchange fuel s x = Some o) ->
  hd_error (out_trace o) = Some req
  /\ Forall (fun r => r = req \/ r = load_request s) (out_trace o).
Proof.
  intros [(name & args & result & -> & Hrun)|[-> Hrun]].
  - apply exchange_invariants in Hrun. tauto.
  - apply Script_Describe_inv in Hrun as (o0 & Hrun & _ & _ & -> & _).
    apply exchange_invariants in Hrun. tauto.
Qed.

(** X8.  No exchange of an [Execute] call carries a nil argument list:
    every [execute] payload of the trace has the session of the handle,
    the function name of the call and its arguments, the empty list
    standing for nil. *)
Theorem Execute_args_never_nil (s : Script) (x : X) (fuel : nat)
        (name : string) (args : option (list any)) (result : option any)
        (o : outcome X) :
  Script_Execute exchanger_exchange fuel s x name args result = Some o ->
  forall r e,
    In r (out_trace o) ->
    req_payload r = PExecute e ->
    Args e <> None
    /\ Args e = Some (match args with Some a => a | None => [] end)
    /\ Function e = name
    /\ exec_Session e = init_Session (init s).
Proof.
  intros Hrun r e Hin Hpl. apply exchange_invariants in Hrun.
  destruct Hrun as (_ & _ & Hall & _).
  rewrite Forall_forall in Hall. destruct (Hall r Hin) as [->| ->].
  - cbn in Hpl. injection Hpl as <-. cbn.
    destruct args; repeat split; discriminate.
  - discriminate.
Qed.

(** X9.  [Describe] returns a symbols map exactly when it returns no
    error: on success the map decoded from the reply, on any error the
    nil map, whatever an earlier reply of the call decoded. *)
Theorem Describe_symbols_iff_no_error (s : Script) (x : X) (fuel : nat)
        (o : outcome X) :
  Script_Describe exchanger_exchange fuel s x = Some o ->
  (out_err o = None -> exists symbols, out_result o = Some symbols)
  /\ (out_err o <> None -> out_result o = None).
Proof.
  intros Hrun.
  apply Script_Describe_inv in Hrun as (o0 & Hrun & _ & _ & _ & He & Hr).
  apply exchange_invariants in Hrun as (_ & _ & _ & Hsink).
  rewrite He, Hr. split.
  - intros E. rewrite E. destruct (out_result o0) as [v|];
      [now exists v|discriminate].
  - destruct (out_err o0); [reflexivity|contradiction].
Qed.

(** X10.  On an exchanger that never reports load-required, a call from
    a counter in [0, int_max) returns within three exchanges, all of
    them of the request of the call. *)
Theorem call_returns_without_load_required (s : Script) (x : X)
        (name : string) (args : option (list any)) (result : option any)
        (fuel : nat) :
  (forall x req err x',
      exchanger_exchange x req = (Failed err, x') ->
      is_ErrOutOfMemory err = false -> is_errLoadRequired err = false) ->
  0 <= errCount s < int_max ->
  (3 <= fuel)%nat ->
  (exists o,
      Script_Execute exchanger_exchange fuel s x name args result = Some o
      /\ out_trace o
         = repeat (the_request execute (execute_payload s name args) result)
                  (List.length (out_trace o))
      /\ (List.length (out_trace o) <= 3)%nat)
  /\ (exists o,
         Script_Describe exchanger_exchange fuel s x = Some o
         /\ out_trace o
            = repeat (the_request describe
                        (PSession (init_Session (init s)))
                        (Some (AObject [])))
                     (List.length (out_trace o))
         /\ (List.length (out_trace o) <= 3)%nat).
Proof.
  intros Hnolr Hc Hfuel. split.
  - apply (exchange_returns X exchanger_exchange 2); auto.
    unfold maxScriptErrors. lia.
  - destruct (exchange_returns X exchanger_exchange 2 s x describe
                (PSession (init_Session (init s))) (Some (AObject []))
                fuel Hnolr Hc) as (o & Hrun & Htrace & Hlen);
      [unfold maxScriptErrors; lia|assumption|].
    unfold Script_Describe. rewrite Hrun.
    destruct (out_err o); eexists; (split; [reflexivity|]); cbn; auto.
Qed.

(** X11.  Reloads are not bounded: on an exchanger that answers
    load-required to every command and accepts every [load], neither
    [Execute] nor [Describe] returns, whatever the recursion depth
    allowed. *)
Theorem call_reload_loop (s : Script) (x : X) (name : string)
        (args : option (list any)) (result : option any) (fuel : nat) :
  (forall x req,
      req_command req <> load ->
      exists err x',
        exchanger_exchange x req = (Failed err, x')
        /\ is_ErrOutOfMemory err = false
        /\ is_errLoadRequired err = true) ->
  (forall x req,
      req_command req = load ->
      exists data x', exchanger_exchange x req = (Done data, x')) ->
  Script_Execute exchanger_exchange fuel s x name args result = None
  /\ Script_Describe exchanger_exchange fuel s x = None.
Proof.
  intros Hlr Hload. unfold Script_Execute, Script_Describe.
  rewrite !(exchange_reload_loop X exchanger_exchange)
    by (assumption || discriminate).
  auto.
Qed.

(** X12.  Out-of-memory retries are bounded whatever the exchanger does:
    in a call from a counter [c] in [0, int_max), the command is
    exchanged at most [max 1 (3 - c)] times more than [load] is, that
    is at most three times more on a fresh handle. *)
Theorem call_budget (s : Script) (x : X) (fuel : nat) (o : outcome X)
        (cmd : command) :
  0 <= errCount s < int_max ->
  (cmd = execute
   /\ exists name args result,
       Script_Execute exchanger_exchange fuel s x name args result = Some o)
  \/ (cmd = describe
      /\ Script_Describe exchanger_exchange fuel s x = Some o) ->
  (count_command cmd (out_trace o)
   <= count_command load (out_trace o)
      + Z.to_nat (Z.max 1 (maxScriptErrors - errCount s)))%nat
  /\ (count_command cmd (out_trace o)
      <= count_command load (out_trace o) + 3)%nat.
Proof.
  intros Hc Hcall.
  assert (H : (count_command cmd (out_trace o)
               <= count_command load (out_trace o)
                  + Z.to_nat (Z.max 1 (maxScriptErrors - errCount s)))%nat).
  { destruct Hcall as [[-> (name & args & result & Hrun)]|[-> Hrun]].
    - apply exchange_budget in Hrun; [assumption|discriminate|assumption].
    - apply Script_Describe_inv in Hrun as (o0 & Hrun & _ & _ & -> & _).
      apply exchange_budget in Hrun; [assumption|discriminate|assumption]. }
  split; [exact H|]. unfold maxScriptErrors in H. lia.
Qed.

(** X13.  [Describe] has the retry ceiling of [Execute]: on a handle
    whose counter is zero, with an exchanger that reports out-of-memory
    on every exchange, it issues exactly three [describe] exchanges and
    returns a nil symbols map with an out-of-memory error, the counter
    left at 3. *)
Theorem Describe_retry_ceiling (s : Script) (x : X) (fuel : nat) :
  always_oom X exchanger_exchange ->
  errCount s = 0 ->
  (3 <= fuel)%nat ->
  let req := the_request describe (PSession (init_Session (init s)))
                         (Some (AObject [])) in
  exists o err,
    Script_Describe exchanger_exchange fuel s x = Some o
    /\ out_trace o = [req; req; req]
    /\ out_result o = None
    /\ out_err o = Some err
    /\ is_ErrOutOfMemory err = true
    /\ errCount (out_script o) = maxScriptErrors.
Proof.
  intros Halways Hfresh Hfuel req.
  destruct (exchange_oom_ceiling X exchanger_exchange 2 s x describe
              (PSession (init_Session (init s))) (Some (AObject []))
              (fun _ => True) fuel)
    as (o & err & Hrun & Htrace & Herr & Hoom & Hcount & _);
    try (rewrite Hfresh; lia); try assumption.
  { now apply always_oom_oom_then. }
  unfold Script_Describe. rewrite Hrun, Herr.
  eexists. exists err. split; [reflexivity|]. cbn. auto.
Qed.

(** X14.  [Describe] loads lazily as [Execute] does: load-required on
    the first [describe] exchange, then a successful [load] and a
    successful [describe], make the call return the symbols of the last
    reply after exactly these three exchanges. *)
Theorem Describe_lazy_load (s : Script) (x0 x1 x2 x3 : X) (err : error)
        (loaded symbols : any) (fuel : nat) :
  let req := the_request describe (PSession (init_Session (init s)))
                         (Some (AObject [])) in
  exchanger_exchange x0 req = (Failed err, x1) ->
  is_ErrOutOfMemory err = false ->
  is_errLoadRequired err = true ->
  exchanger_exchange x1 (load_request s) = (Done loaded, x2) ->
  exchanger_exchange x2 req = (Done symbols, x3) ->
  (2 <= fuel)%nat ->
  exists o,
    Script_Describe exchanger_exchange fuel s x0 = Some o
    /\ out_err o = None
    /\ out_result o = Some symbols
    /\ out_trace o = [req; load_request s; req]
    /\ errCount (out_script o) = 0.
Proof.
  intros req H0 Hoom Hlr H1 H2 Hfuel.
  destruct fuel as [|[|fuel]]; try lia.
  unfold Script_Describe.
  rewrite (exchange_load_retry X exchanger_exchange _ _ _ _ _ _ _ _ _ _
             H0 Hoom Hlr H1).
  rewrite (exchange_success X exchanger_exchange _ _ _ _ _ _ _ _ H2).
  cbn. eexists. split; [reflexivity|]. cbn. auto.
Qed.

End Calls.

(** ** The properties at concrete exchangers *)

Lemma call_preserves_descriptor_witness :
  exists o,
    Script_Execute Mock.scripted 3 Mock.fresh_script
      [Failed ErrOutOfMemory; Failed errLoadRequired; Done ANull;
       Done (ANumber 7)] "main" None (Some ANull) = Some o
    /\ out_script o
       = set_errCount Mock.fresh_script (errCount (out_script o)).
Proof.
  eexists. split; [vm_compute; reflexivity|].
  apply (call_preserves_descriptor (list reply) Mock.scripted
           Mock.fresh_script
           [Failed ErrOutOfMemory; Failed errLoadRequired; Done ANull;
            Done (ANumber 7)] 3).
  left. exists "main", None, (Some ANull). vm_compute. reflexivity.
Defined.

Lemma call_trace_shape_witness :
  let req := the_request describe
               (PSession (init_Session (init Mock.fresh_script)))
               (Some (AObject [])) in
  exists o,
    Script_Describe Mock.scripted 3 Mock.fresh_script
      [Failed errLoadRequired; Done ANull; Failed ErrOutOfMemory;
       Done (AObject [("main", AString "function")])] = Some o
    /\ hd_error (out_trace o) = Some req
    /\ Forall (fun r => r = req \/ r = load_request Mock.fresh_script)
              (out_trace o).
Proof.
  intros req. eexists. split; [vm_compute; reflexivity|].
  apply (call_trace_shape (list reply) Mock.scripted Mock.fresh_script
           [Failed errLoadRequired; Done ANull; Failed ErrOutOfMemory;
            Done (AObject [("main", AString "function")])] 3).
  right. split; [reflexivity|]. vm_compute. reflexivity.
Defined.

Lemma Execute_args_never_nil_witness :
  exists o,
    Script_Execute Mock.scripted 2 Mock.fresh_script
      [Failed errLoadRequired; Done ANull; Done (ANumber 7)]
      "main" None None = Some o
    /\ forall r e,
        In r (out_trace o) ->
        req_payload r = PExecute e ->
        Args e <> None
        /\ Args e = Some []
        /\ Function e = "main"
        /\ exec_Session e = init_Session (init Mock.fresh_script).
Proof.
  eexists. split; [vm_compute; reflexivity|].
  apply (Execute_args_never_nil (list reply) Mock.scripted
           Mock.fresh_script
           [Failed errLoadRequired; Done ANull; Done (ANumber 7)]
           2 "main" None None).
  vm_compute. reflexivity.
Defined.

Lemma Describe_symbols_iff_no_error_witness :
  exists o,
    Script_Describe Mock.scripted 2 Mock.fresh_script
      [Failed errLoadRequired; Failed (Opaque "load failed")] = Some o
    /\ (out_err o = None -> exists symbols, out_result o = Some symbols)
    /\ (out_err o <> None -> out_result o = None).
Proof.
  eexists. split; [vm_compute; reflexivity|].
  apply (Describe_symbols_iff_no_error (list reply) Mock.scripted
           Mock.fresh_script
           [Failed errLoadRequired; Failed (Opaque "load failed")] 2).
  vm_compute. reflexivity.
Defined.

Lemma call_returns_without_load_required_witness :
  (exists o,
      Script_Execute (Mock.constant (Failed (Opaque "broken pipe"))) 3
        Mock.fresh_script tt "main" None None = Some o
      /\ out_trace o
         = repeat (the_request execute
                     (execute_payload Mock.fresh_script "main" None) None)
                  (List.length (out_trace o))
      /\ (List.length (out_trace o) <= 3)%nat)
  /\ (exists o,
         Script_Describe (Mock.constant (Failed (Opaque "broken pipe"))) 3
           Mock.fresh_script tt = Some o
         /\ out_trace o
            = repeat (the_request describe
                        (PSession (init_Session (init Mock.fresh_script)))
                        (Some (AObject [])))
                     (List.length (out_trace o))
         /\ (List.length (out_trace o) <= 3)%nat).
Proof.
  apply (call_returns_without_load_required unit
           (Mock.constant (Failed (Opaque "broken pipe")))
           Mock.fresh_script tt "main" None None 3).
  - intros x req err x' Hx _. injection Hx as <- _. reflexivity.
  - vm_compute. split; [discriminate|reflexivity].
  - apply le_n.
Defined.

Lemma call_reload_loop_witness :
  Script_Execute evicting_exchanger 1000 Mock.fresh_script tt "main" None
    None = None
  /\ Script_Describe evicting_exchanger 1000 Mock.fresh_script tt = None.
Proof.
  apply (call_reload_loop unit evicting_exchanger Mock.fresh_script tt
           "main" None None 1000).
  - intros x req Hreq. exists errLoadRequired, x.
    unfold evicting_exchanger.
    destruct (req_command req); try contradiction; auto.
  - intros x req Hreq. exists ANull, x.
    unfold evicting_exchanger. now rewrite Hreq.
Defined.

Lemma call_budget_witness :
  exists o,
    Script_Execute Mock.scripted 5 Mock.fresh_script
      [Failed ErrOutOfMemory; Failed errLoadRequired; Done ANull;
       Failed ErrOutOfMemory; Failed errLoadRequired; Done ANull;
       Failed ErrOutOfMemory] "main" None None = Some o
    /\ (count_command execute (out_trace o)
        <= count_command load (out_trace o)
           + Z.to_nat (Z.max 1 (maxScriptErrors
                                - errCount Mock.fresh_script)))%nat
    /\ (count_command execute (out_trace o)
        <= count_command load (out_trace o) + 3)%nat.
Proof.
  eexists. split; [vm_compute; reflexivity|].
  apply (call_budget (list reply) Mock.scripted Mock.fresh_script
           [Failed ErrOutOfMemory; Failed errLoadRequired; Done ANull;
            Failed ErrOutOfMemory; Failed errLoadRequired; Done ANull;
            Failed ErrOutOfMemory] 5).
  - vm_compute. split; [discriminate|reflexivity].
  - left. split; [reflexivity|]. exists "main", None, None.
    vm_compute. reflexivity.
Defined.

Lemma Describe_retry_ceiling_witness :
  let req := the_request describe
               (PSession (init_Session (init Mock.fresh_script)))
               (Some (AObject [])) in
  exists o err,
    Script_Describe (Mock.constant (Failed ErrOutOfMemory)) 3
      Mock.fresh_script tt = Some o
    /\ out_trace o = [req; req; req]
    /\ out_result o = None
    /\ out_err o = Some err
    /\ is_ErrOutOfMemory err = true
    /\ errCount (out_script o) = maxScriptErrors.
Proof.
  apply (Describe_retry_ceiling unit (Mock.constant (Failed ErrOutOfMemory))
           Mock.fresh_script tt 3).
  - intros x req. exists ErrOutOfMemory. split; reflexivity.
  - reflexivity.
  - apply le_n.
Defined.

Lemma Describe_lazy_load_witness :
  let req := the_request describe
               (PSession (init_Session (init Mock.fresh_script)))
               (Some (AObject [])) in
  exists o,
    Script_Describe Mock.scripted 2 Mock.fresh_script
      [Failed (Wrap "describe" errLoadRequired); Done ANull;
       Done (AObject [("main", AString "function")])] = Some o
    /\ out_err o = None
    /\ out_result o = Some (AObject [("main", AString "function")])
    /\ out_trace o = [req; load_request Mock.fresh_script; req]
    /\ errCount (out_script o) = 0.
Proof.
  apply (Describe_lazy_load (list reply) Mock.scripted Mock.fresh_script
           [Failed (Wrap "describe" errLoadRequired); Done ANull;
            Done (AObject [("main", AString "function")])]
           [Done ANull; Done (AObject [("main", AString "function")])]
           [Done (AObject [("main", AString "function")])] []
           (Wrap "describe" errLoadRequired) ANull
           (AObject [("main", AString "function")]) 2);
    reflexivity.
Defined.
